(** * Dust-account cleaner: a model of [src/commands/dust.ts]

    The command scans the token accounts of a wallet, classifies each one
    by risk, and closes the empty ones (burning small balances first when
    asked), in batches or one by one under the operator's control.

    The development follows the source function by function.  JavaScript
    values are modelled as follows:
    - [bigint] is [Z]; a [number] that counts is [nat];
    - a [number] used as a quantity is an IEEE-754 binary64 value, taken
      from the standard library's executable specification [SpecFloat]
      ([prec = 53], [emax = 1024], round to nearest, ties to even);
    - strings are [string]; [toLowerCase] folds the ASCII letters;
    - promises are awaited one at a time, so asynchronous code is plain
      sequential code in a state-and-exception monad. *)

From Stdlib Require Import String Ascii.
From Stdlib Require Import ZArith NArith List Bool Lia.
From Stdlib Require Import QArith.
From Stdlib Require Import Floats.SpecFloat.
From Stdlib Require Import Sorting.Sorted Sorting.Permutation.
From Equations Require Import Equations.
Import ListNotations.

Local Open Scope string_scope.
Local Open Scope list_scope.
Local Open Scope nat_scope.

(* ================================================================= *)
(** ** JavaScript numbers *)

Module Num.

Definition prec : Z := 53.
Definition emax : Z := 1024.

Definition number := spec_float.

(** [Number(b)] for a bigint [b], and any integer literal: the nearest
    binary64 value. *)
Definition ofZ (z : Z) : number := binary_normalize prec emax z 0 false.

(** [Math.pow(10, d)] for a non-negative integer [d].  The powers up to
    [10^22] are binary64 values, so the result is exact there; above, the
    model takes the nearest binary64 value. *)
Definition pow10 (d : N) : number := ofZ (10 ^ Z.of_N d).

Definition div : number -> number -> number := SFdiv prec emax.
Definition add : number -> number -> number := SFadd prec emax.
Definition ltb : number -> number -> bool := SFltb.

Definition zero : number := S754_zero false.
Definition one : number := ofZ 1.

(** The literal [0.0001]: [7378697629483821 * 2^-66]. *)
Definition lit_0_0001 : number := S754_finite false 7378697629483821 (-66).

(** The literal [1e9]. *)
Definition lit_1e9 : number := ofZ 1000000000.

End Num.

(* ================================================================= *)
(** ** Strings *)

(** [c.toLowerCase()] on one ASCII character. *)
Definition lower_ascii (c : ascii) : ascii :=
  let n := nat_of_ascii c in
  if (65 <=? n) && (n <=? 90) then ascii_of_nat (n + 32) else c.

(** [s.toLowerCase()]. *)
Fixpoint toLowerCase (s : string) : string :=
  match s with
  | EmptyString => EmptyString
  | String c rest => String (lower_ascii c) (toLowerCase rest)
  end.

(** [s.startsWith(p)]. *)
Fixpoint startsWith (s p : string) : bool :=
  match p, s with
  | EmptyString, _ => true
  | String _ _, EmptyString => false
  | String a p', String b s' => Ascii.eqb a b && startsWith s' p'
  end.

(** [s.includes(p)]: [p] occurs in [s] at some position. *)
Fixpoint includes (s p : string) : bool :=
  startsWith s p ||
  match s with
  | EmptyString => false
  | String _ rest => includes rest p
  end.

(* ================================================================= *)
(** ** Data model *)

Definition PublicKey := string.

Definition RENT_EXEMPT_LAMPORTS : Z := 2039280.

Definition SPAM_INDICATORS : list string :=
  [ "airdrop"; "free"; "claim"; "reward"; "bonus"; "gift";
    "winner"; "congratulation"; "lucky"; "prize" ].

Record TokenMetadata := mkTokenMetadata {
  name : string;
  symbol : string;
  logoURI : option string
}.

Inductive RiskLevel := LOW | MEDIUM | HIGH | UNKNOWN.

Record TokenAccount := mkTokenAccount {
  pubkey : PublicKey;
  mint : string;
  balance : Z;
  decimals : N;
  isCloseable : bool;
  metadata : option TokenMetadata;
  riskLevel : RiskLevel;
  riskReason : option string
}.

(** The value [classifyTokenRisk] returns: [{ level, reason? }]. *)
Record Risk := mkRisk {
  level : RiskLevel;
  reason : option string
}.

Definition RiskLevel_eqb (a b : RiskLevel) : bool :=
  match a, b with
  | LOW, LOW | MEDIUM, MEDIUM | HIGH, HIGH | UNKNOWN, UNKNOWN => true
  | _, _ => false
  end.

(* ================================================================= *)
(** ** [classifyTokenRisk] *)

(** The loop over [SPAM_INDICATORS]: [Some r] when the loop body returns
    [r], [None] when the loop runs to its end. *)
Fixpoint spamLoop (indicators : list string) (name symbol : string) : option Risk :=
  match indicators with
  | [] => None
  | indicator :: rest =>
      if includes name indicator || includes symbol indicator
      then Some (mkRisk HIGH (Some "Suspicious name (potential scam/airdrop)"))
      else spamLoop rest name symbol
  end.

(** [Number(account.balance) / Math.pow(10, account.decimals)]. *)
Definition displayBalance (balance : Z) (decimals : N) : Num.number :=
  Num.div (Num.ofZ balance) (Num.pow10 decimals).

(** The first argument of the source is the object
    [{ mint, balance, decimals }]; its fields are passed one by one. *)
Definition classifyTokenRisk (mint : string) (balance : Z) (decimals : N)
    (metadata : option TokenMetadata) : Risk :=
  let name := match metadata with Some m => toLowerCase (name m) | None => "" end in
  let symbol := match metadata with Some m => toLowerCase (symbol m) | None => "" end in
  match spamLoop SPAM_INDICATORS name symbol with
  | Some r => r
  | None =>
      let balance' := displayBalance balance decimals in
      if Num.ltb Num.zero balance' && Num.ltb balance' Num.lit_0_0001
      then mkRisk HIGH (Some "Micro balance (likely tracking dust)")
      else if (balance =? 0)%Z
      then mkRisk LOW (Some "Empty account - safe to close")
      else if Num.ltb balance' Num.one
      then mkRisk MEDIUM (Some "Small balance - review before closing")
      else mkRisk UNKNOWN (Some "Unable to classify")
  end.

(** *** The classifier as the specification words it *)

(** Rule 1: the lower-cased name or symbol contains an entry of the
    vocabulary.  Absent metadata matches nothing. *)
Definition spamMatch (metadata : option TokenMetadata) : bool :=
  match metadata with
  | None => false
  | Some m =>
      existsb (fun w => includes (toLowerCase (name m)) w
                        || includes (toLowerCase (symbol m)) w)
              SPAM_INDICATORS
  end.

(** [rawBalance / 10^decimals] as a rational number. *)
Definition normalizedBalance (rawBalance : Z) (decimals : N) : Q :=
  (inject_Z rawBalance / inject_Z (10 ^ Z.of_N decimals))%Q.

Definition Qltb (x y : Q) : bool := negb (Qle_bool y x).

(** The five rules over the rational quotient. *)
Definition classify_reference (rawBalance : Z) (decimals : N)
    (metadata : option TokenMetadata) : RiskLevel :=
  let nb := normalizedBalance rawBalance decimals in
  if spamMatch metadata then HIGH
  else if Qltb 0 nb && Qltb nb (1 # 10000) then HIGH
  else if (rawBalance =? 0)%Z then LOW
  else if Qltb nb 1 then MEDIUM
  else UNKNOWN.

(** The five rules over the binary64 quotient. *)
Definition classify_reference_binary64 (rawBalance : Z) (decimals : N)
    (metadata : option TokenMetadata) : RiskLevel :=
  let nb := displayBalance rawBalance decimals in
  if spamMatch metadata then HIGH
  else if Num.ltb Num.zero nb && Num.ltb nb Num.lit_0_0001 then HIGH
  else if (rawBalance =? 0)%Z then LOW
  else if Num.ltb nb Num.one then MEDIUM
  else UNKNOWN.

(* ================================================================= *)
(** ** The scanner's list: building and sorting *)

(** One entry of [getParsedTokenAccountsByOwner(...).value]: the account
    address and the fields of [account.data.parsed.info] the code reads.
    [amount] is [BigInt(info.tokenAmount.amount)]. *)
Record ParsedTokenAccount := mkParsed {
  parsed_pubkey : PublicKey;
  parsed_mint : string;
  parsed_amount : Z;
  parsed_decimals : N
}.

(** [metadataMap.get]. *)
Definition MetadataMap := string -> option TokenMetadata.

(** The callback of [tokenAccounts.value.map] in [scanDust] and
    [cleanDust]. *)
Definition toTokenAccount (metadataMap : MetadataMap) (account : ParsedTokenAccount)
    : TokenAccount :=
  let balance := parsed_amount account in
  let decimals := parsed_decimals account in
  let metadata := metadataMap (parsed_mint account) in
  let risk := classifyTokenRisk (parsed_mint account) balance decimals metadata in
  mkTokenAccount (parsed_pubkey account) (parsed_mint account) balance decimals
                 (balance =? 0)%Z metadata (level risk) (reason risk).

Definition riskOrder (l : RiskLevel) : Z :=
  match l with
  | HIGH => 0
  | MEDIUM => 1
  | LOW => 2
  | UNKNOWN => 3
  end.

(** The comparator [(a, b) => riskOrder[a.riskLevel] - riskOrder[b.riskLevel]]. *)
Definition compareRisk (a b : TokenAccount) : Z :=
  (riskOrder (riskLevel a) - riskOrder (riskLevel b))%Z.

(** Membership of a tier, and the order of the priority table. *)
Definition inTier (tier : RiskLevel) (a : TokenAccount) : bool :=
  RiskLevel_eqb (riskLevel a) tier.

Definition riskLe (a b : TokenAccount) : Prop :=
  (riskOrder (riskLevel a) <= riskOrder (riskLevel b))%Z.

(** [Array.prototype.sort(comparefn)].  ECMAScript requires the sort to be
    stable, which fixes its result for a consistent comparator; the model
    is the insertion sort that puts an element before the first element of
    the sorted rest that does not compare below it. *)
Fixpoint Array_insert {A} (comparefn : A -> A -> Z) (x : A) (sorted : list A) : list A :=
  match sorted with
  | [] => [x]
  | y :: rest =>
      if (comparefn x y <=? 0)%Z then x :: y :: rest
      else y :: Array_insert comparefn x rest
  end.

Fixpoint Array_sort {A} (comparefn : A -> A -> Z) (l : list A) : list A :=
  match l with
  | [] => []
  | x :: rest => Array_insert comparefn x (Array_sort comparefn rest)
  end.

(** [accounts] of [scanDust] after [accounts.sort(...)]. *)
Definition scanDust_accounts (metadataMap : MetadataMap)
    (tokenAccounts : list ParsedTokenAccount) : list TokenAccount :=
  Array_sort compareRisk (map (toTokenAccount metadataMap) tokenAccounts).

Definition isDust (a : TokenAccount) : bool :=
  RiskLevel_eqb (riskLevel a) HIGH || RiskLevel_eqb (riskLevel a) MEDIUM.

(** [tokensToShow] of [scanDust]. *)
Definition tokensToShow (showAll : bool) (accounts : list TokenAccount)
    : list TokenAccount :=
  let closeable := filter isCloseable accounts in
  let dustTokens := filter isDust accounts in
  if showAll then accounts else dustTokens ++ closeable.

(** [accounts.slice(start, end)] for [start <= end]. *)
Definition slice {A} (start end_ : nat) (l : list A) : list A :=
  firstn (end_ - start) (skipn start l).

(* ================================================================= *)
(** ** Instructions and transactions *)

Inductive Instruction :=
| BurnInstruction (account mint owner : PublicKey) (amount : Z)
| CloseAccountInstruction (account destination authority : PublicKey).

(** A [Transaction] is the sequence of instructions added to it. *)
Definition Transaction := list Instruction.

Record Keypair := mkKeypair {
  publicKey : PublicKey;
  secretKey : list Byte.byte
}.

(** The instructions both processors add for one account: the burn when
    [account.balance > 0n], then the close.  [account.mint] comes from the
    ledger, so [new PublicKey(account.mint)] is the mint itself. *)
Definition accountInstructions (keypair : Keypair) (account : TokenAccount)
    : list Instruction :=
  (if (0 <? balance account)%Z
   then [BurnInstruction (pubkey account) (mint account) (publicKey keypair)
                         (balance account)]
   else [])
  ++ [CloseAccountInstruction (pubkey account) (publicKey keypair) (publicKey keypair)].

(* ================================================================= *)
(** ** The platform: ledger client, file system and key decoders *)

(** What the command calls and does not define.  [Net] is everything the
    RPC node and the metadata service may depend on.  A result [inl msg]
    is a thrown [Error] with that message. *)
Class Platform := {
  Net : Type;
  (** [new PublicKey(s)] returns rather than throws *)
  validPublicKey : string -> bool;
  getParsedTokenAccountsByOwner :
    PublicKey -> Net -> (string + list ParsedTokenAccount) * Net;
  (** the source's [fetchTokenMetadata]: never throws *)
  fetchTokenMetadata : list string -> Net -> MetadataMap * Net;
  sendAndConfirmTransaction :
    Transaction -> Keypair -> Net -> (string + string) * Net;
  HOME : option string;
  path_join : string -> string -> string;
  path_resolve : string -> string;
  existsSync : string -> bool;
  (** [fs.readFileSync(path, "utf-8")]: the content, or the error thrown
      for a path that cannot be read (a directory, a file without read
      permission) *)
  readFileSync : string -> string + string;
  (** [new Uint8Array(JSON.parse(s))], [None] when it throws *)
  JSON_parse_Uint8Array : string -> option (list Byte.byte);
  (** [bs58.decode(s)], [None] when it throws *)
  bs58_decode : string -> option (list Byte.byte);
  (** [Keypair.fromSecretKey(bytes)], [None] when it throws *)
  Keypair_fromSecretKey : list Byte.byte -> option Keypair
}.

(* ================================================================= *)
(** ** [loadKeypair] *)

(** A call that returns or throws an [Error] with a message. *)
Inductive Thrown (A : Type) :=
| Returned (a : A)
| Threw (msg : string).
Arguments Returned {A} a.
Arguments Threw {A} msg.

Definition ofOption {A} (o : option A) (msg : string) : Thrown A :=
  match o with
  | Some a => Returned a
  | None => Threw msg
  end.

Definition bindT {A B} (m : Thrown A) (k : A -> Thrown B) : Thrown B :=
  match m with
  | Returned a => k a
  | Threw msg => Threw msg
  end.

(** [try { body } catch { handler }]. *)
Definition tryT {A} (body : Thrown A) (handler : Thrown A) : Thrown A :=
  match body with
  | Returned a => Returned a
  | Threw _ => handler
  end.

Definition isSpace (c : ascii) : bool :=
  let n := nat_of_ascii c in
  (n =? 32) || ((9 <=? n) && (n <=? 13)).

Fixpoint trimStart (s : string) : string :=
  match s with
  | EmptyString => EmptyString
  | String c rest => if isSpace c then trimStart rest else s
  end.

Fixpoint trimEnd (s : string) : string :=
  match s with
  | EmptyString => EmptyString
  | String c rest =>
      match trimEnd rest with
      | EmptyString => if isSpace c then EmptyString else String c EmptyString
      | rest' => String c rest'
      end
  end.

Definition trim (s : string) : string := trimEnd (trimStart s).

Definition INVALID_KEYPAIR_FORMAT : string :=
  "Invalid keypair format. Expected JSON array or base58 string.".

Section LoadKeypair.
Context {P : Platform}.

Definition resolveKeypairPath (keypairPath : string) : string :=
  if startsWith keypairPath "~"
  then path_join (match HOME with Some h => h | None => "" end)
                 (substring 1 (String.length keypairPath - 1) keypairPath)
  else path_resolve keypairPath.

Definition loadKeypair (keypairPath : string) : Thrown Keypair :=
  let resolvedPath := resolveKeypairPath keypairPath in
  if negb (existsSync resolvedPath)
  then Threw ("Keypair file not found: " ++ resolvedPath)
  else
    match readFileSync resolvedPath with
    | inl msg => Threw msg
    | inr raw =>
        let content := trim raw in
        tryT (bindT (ofOption (JSON_parse_Uint8Array content) "JSON.parse")
                    (fun secretKey =>
                       ofOption (Keypair_fromSecretKey secretKey) "bad secret key"))
             (tryT (bindT (ofOption (bs58_decode content) "bs58.decode")
                          (fun secretKey =>
                             ofOption (Keypair_fromSecretKey secretKey)
                                      "bad secret key"))
                   (Threw INVALID_KEYPAIR_FORMAT))
    end.

(** The two encodings as the specification names them: the file content
    decodes to a valid secret key. *)
Definition decodesAsJsonArray (content : string) : option Keypair :=
  match JSON_parse_Uint8Array content with
  | Some bytes => Keypair_fromSecretKey bytes
  | None => None
  end.

Definition decodesAsBase58 (content : string) : option Keypair :=
  match bs58_decode content with
  | Some bytes => Keypair_fromSecretKey bytes
  | None => None
  end.

End LoadKeypair.

(* ================================================================= *)
(** ** The run: state, exceptions and exit *)

(** What a run writes to the terminal, as far as the properties below
    read it. *)
Inductive Output :=
| NothingToClean
| DryRunNotice
| DryRunEntry (i : nat) (account : TokenAccount)
| KeypairRequired
| KeypairMismatch (keypairKey walletAddress : string)
| Aborted
| ErrorMessage (msg : string)
| BatchClosed (n : nat) (signature : string)
| BatchFailed (msg : string)
| AccountDone (signature : string)
| AccountFailed (msg : string)
| Summary (closed : nat) (recovered : Num.number).

(** The trace of a run.  [Built] records one [transaction.add(...)],
    [Submitted] one call of [sendAndConfirmTransaction] with its result,
    [Asked] one answered prompt. *)
Inductive Event :=
| Out (o : Output)
| Built (i : Instruction)
| Submitted (tx : Transaction) (signer : PublicKey) (result : string + string)
| Asked (answer : string).

Inductive Completion (A : Type) :=
| Normal (a : A)
| Throw (msg : string)
| Exit (code : Z)
| Hang.
Arguments Normal {A} a.
Arguments Throw {A} msg.
Arguments Exit {A} code.
Arguments Hang {A}.

Section Run.
Context {P : Platform}.

(** The lines the operator will type, the state of the network, and the
    trace so far. *)
Record State := mkState {
  stdin : list string;
  net : Net;
  log : list Event
}.

Definition M (A : Type) : Type := State -> Completion A * State.

Definition ret {A} (a : A) : M A := fun s => (Normal a, s).

Definition bind {A B} (m : M A) (k : A -> M B) : M B :=
  fun s =>
    match m s with
    | (Normal a, s') => k a s'
    | (Throw msg, s') => (Throw msg, s')
    | (Exit code, s') => (Exit code, s')
    | (Hang, s') => (Hang, s')
    end.

Definition throw {A} (msg : string) : M A := fun s => (Throw msg, s).

(** [process.exit(code)]: no handler runs. *)
Definition exit {A} (code : Z) : M A := fun s => (Exit code, s).

(** [try { body } catch (err) { handler(err.message) }]. *)
Definition try_catch {A} (body : M A) (handler : string -> M A) : M A :=
  fun s =>
    match body s with
    | (Throw msg, s') => handler msg s'
    | r => r
    end.

Definition emit (e : Event) : M unit :=
  fun s => (Normal tt, mkState (stdin s) (net s) (log s ++ [e])).

Definition print (o : Output) : M unit := emit (Out o).

Definition ofThrown {A} (t : Thrown A) : M A :=
  match t with
  | Returned a => ret a
  | Threw msg => throw msg
  end.

(** [await question(prompt)]: the next line typed.  With no line left the
    promise never resolves. *)
Definition question : M string :=
  fun s =>
    match stdin s with
    | [] => (Hang, s)
    | answer :: rest => (Normal answer, mkState rest (net s) (log s ++ [Asked answer]))
    end.

(** [await sendAndConfirmTransaction(connection, transaction, [keypair])]. *)
Definition send (transaction : Transaction) (keypair : Keypair) : M string :=
  fun s =>
    let '(result, net') := sendAndConfirmTransaction transaction keypair (net s) in
    let s' := mkState (stdin s) net'
                      (log s ++ [Submitted transaction (publicKey keypair) result]) in
    match result with
    | inl msg => (Throw msg, s')
    | inr signature => (Normal signature, s')
    end.

End Run.

Declare Scope run_scope.
Delimit Scope run_scope with run.
Notation "x <- m ;; k" := (bind m (fun x => k))
  (at level 61, m at next level, right associativity) : run_scope.
Notation "m ;; k" := (bind m (fun _ => k))
  (at level 61, right associativity) : run_scope.
Local Open Scope run_scope.

Section Processors.
Context {P : Platform}.

(** [transaction.add(...)] for each instruction of one account. *)
Fixpoint addAll (instructions : list Instruction) : M unit :=
  match instructions with
  | [] => ret tt
  | i :: rest => emit (Built i) ;; addAll rest
  end.

(** The running totals of a processor. *)
Record Totals := mkTotals {
  totalClosed : nat;
  totalRecovered : Num.number
}.

(** [(n * RENT_EXEMPT_LAMPORTS) / 1e9]: the reserve of [n] accounts in
    SOL.  The product is an integer far below [2^53]. *)
Definition reserveSOL (n : nat) : Num.number :=
  Num.div (Num.ofZ (Z.of_nat n * RENT_EXEMPT_LAMPORTS)) Num.lit_1e9.

(* ----------------------------------------------------------------- *)
(** *** [batchProcess] *)

Definition batchSize : nat := 5.

(** The body of the [for (const account of batch)] loop, over the batch. *)
Fixpoint addBatch (keypair : Keypair) (batch : list TokenAccount) : M unit :=
  match batch with
  | [] => ret tt
  | account :: rest =>
      addAll (accountInstructions keypair account) ;; addBatch keypair rest
  end.

(** The transaction the loop above has built. *)
Definition batchTransaction (keypair : Keypair) (batch : list TokenAccount)
    : Transaction :=
  flat_map (accountInstructions keypair) batch.

(** One turn of the outer loop: the [try]/[catch] around one batch. *)
Definition processBatch (keypair : Keypair) (batch : list TokenAccount)
    (totals : Totals) : M Totals :=
  try_catch
    (addBatch keypair batch ;;
     signature <- send (batchTransaction keypair batch) keypair ;;
     print (BatchClosed (List.length batch) signature) ;;
     ret (mkTotals (totalClosed totals + List.length batch)
                   (Num.add (totalRecovered totals) (reserveSOL (List.length batch)))))
    (fun msg => print (BatchFailed msg) ;; ret totals).

(** [for (let i = 0; i < accounts.length; i += batchSize)], from [i]. *)
Equations batchLoop (keypair : Keypair) (accounts : list TokenAccount) (i : nat)
    (totals : Totals) : M Totals by wf (List.length accounts - i) lt :=
batchLoop keypair accounts i totals with lt_dec i (List.length accounts) := {
  | left _ =>
      totals' <- processBatch keypair (slice i (i + batchSize) accounts) totals ;;
      batchLoop keypair accounts (i + batchSize) totals'
  | right _ => ret totals
}.
Next Obligation. unfold batchSize. lia. Qed.

Definition batchProcess (keypair : Keypair) (accounts : list TokenAccount) : M unit :=
  totals <- batchLoop keypair accounts 0 (mkTotals 0 Num.zero) ;;
  print (Summary (totalClosed totals) (totalRecovered totals)).

(** The value of [batch] at each turn of the loop, from index [i]. *)
Equations batches (accounts : list TokenAccount) (i : nat)
    : list (list TokenAccount) by wf (List.length accounts - i) lt :=
batches accounts i with lt_dec i (List.length accounts) := {
  | left _ => slice i (i + batchSize) accounts :: batches accounts (i + batchSize)
  | right _ => []
}.
Next Obligation. unfold batchSize. lia. Qed.

(** The loop seen as a pass over its batches. *)
Fixpoint foldBatches (keypair : Keypair) (bs : list (list TokenAccount))
    (totals : Totals) : M Totals :=
  match bs with
  | [] => ret totals
  | b :: rest =>
      totals' <- processBatch keypair b totals ;;
      foldBatches keypair rest totals'
  end.

(* ----------------------------------------------------------------- *)
(** *** [interactiveClean] *)

(** The [try]/[catch] around one account. *)
Definition processAccount (keypair : Keypair) (account : TokenAccount)
    (totals : Totals) : M Totals :=
  try_catch
    (addAll (accountInstructions keypair account) ;;
     signature <- send (accountInstructions keypair account) keypair ;;
     print (AccountDone signature) ;;
     ret (mkTotals (totalClosed totals + 1)
                   (Num.add (totalRecovered totals) (reserveSOL 1))))
    (fun msg => print (AccountFailed msg) ;; ret totals).

(** The flags of the loop: [(shouldProcess, skipRemaining, processAll)]
    after the prompt of one turn. *)
Definition switchAnswer (answer : string) (skipRemaining processAll : bool)
    : M (bool * bool * bool) :=
  let a := toLowerCase answer in
  if (a =? "y")%string || (a =? "yes")%string then ret (true, skipRemaining, processAll)
  else if (a =? "a")%string || (a =? "all")%string then ret (true, skipRemaining, true)
  else if (a =? "q")%string || (a =? "quit")%string then ret (false, true, processAll)
  else ret (false, skipRemaining, processAll).

Definition decide (skipRemaining processAll : bool) : M (bool * bool * bool) :=
  if processAll then ret (true, skipRemaining, processAll)
  else if negb skipRemaining
  then answer <- question ;; switchAnswer answer skipRemaining processAll
  else ret (false, skipRemaining, processAll).

(** [for (let i = 0; i < accounts.length; i++)] over [accounts[i]]. *)
Fixpoint interactiveLoop (keypair : Keypair) (accounts : list TokenAccount)
    (totals : Totals) (skipRemaining processAll : bool) : M Totals :=
  match accounts with
  | [] => ret totals
  | account :: rest =>
      flags <- decide skipRemaining processAll ;;
      let '(shouldProcess, skipRemaining', processAll') := flags in
      totals' <- (if shouldProcess : bool
                  then processAccount keypair account totals
                  else ret totals) ;;
      interactiveLoop keypair rest totals' skipRemaining' processAll'
  end.

Definition interactiveClean (keypair : Keypair) (accounts : list TokenAccount)
    : M unit :=
  totals <- interactiveLoop keypair accounts (mkTotals 0 Num.zero) false false ;;
  print (Summary (totalClosed totals) (totalRecovered totals)).

(* ----------------------------------------------------------------- *)
(** *** [cleanDust] *)

(** [keypair]: the path given with [--keypair], which is not the empty
    string, or [None] without the option. *)
Record Options := mkOptions {
  keypair : option string;
  yes : bool;
  dryRun : bool;
  interactive : bool;
  burn : bool
}.

(** The ledger query, the metadata lookup and the account list, as
    [scanDust] and [cleanDust] both start. *)
Definition fetchAccounts (walletAddress : string) : M (list ParsedTokenAccount * MetadataMap) :=
  fun s =>
    if negb (validPublicKey walletAddress) then (Throw "Invalid public key input", s)
    else
      let '(result, net1) := getParsedTokenAccountsByOwner walletAddress (net s) in
      match result with
      | inl msg => (Throw msg, mkState (stdin s) net1 (log s))
      | inr tokenAccounts =>
          let '(metadataMap, net2) :=
            fetchTokenMetadata (map parsed_mint tokenAccounts) net1 in
          (Normal (tokenAccounts, metadataMap), mkState (stdin s) net2 (log s))
      end.

Definition isBurnable (a : TokenAccount) : bool :=
  negb (isCloseable a) && isDust a.

(** [toProcess = [...closeable, ...burnable]]. *)
Definition toProcess (options : Options) (accounts : list TokenAccount)
    : list TokenAccount :=
  let closeable := filter isCloseable accounts in
  let burnable := if burn options then filter isBurnable accounts else [] in
  closeable ++ burnable.

(** [toProcess.forEach((account, i) => console.log(...))] of the dry run. *)
Fixpoint printDryRun (i : nat) (accounts : list TokenAccount) : M unit :=
  match accounts with
  | [] => ret tt
  | account :: rest => print (DryRunEntry (i + 1) account) ;; printDryRun (i + 1) rest
  end.

Definition cleanDust (walletAddress : string) (options : Options) : M unit :=
  try_catch
    (fetched <- fetchAccounts walletAddress ;;
     let '(tokenAccounts, metadataMap) := fetched in
     let accounts := map (toTokenAccount metadataMap) tokenAccounts in
     let toProcess := toProcess options accounts in
     if List.length toProcess =? 0 then print NothingToClean
     else if dryRun options then print DryRunNotice ;; printDryRun 0 toProcess
     else
       match keypair options with
       | None => print KeypairRequired ;; exit 1
       | Some keypairPath =>
           keypair <- ofThrown (loadKeypair keypairPath) ;;
           if negb (publicKey keypair =? walletAddress)%string
           then print (KeypairMismatch (publicKey keypair) walletAddress) ;; exit 1
           else if interactive options then interactiveClean keypair toProcess
           else
             proceed <- (if negb (yes options)
                         then answer <- question ;; ret (toLowerCase answer =? "y")%string
                         else ret true) ;;
             if proceed : bool then batchProcess keypair toProcess
             else print Aborted
       end)
    (fun msg => print (ErrorMessage msg) ;; exit 1).

(** [accounts] and [tokensToShow] of [scanDust]. *)
Definition scanDust (walletAddress : string) (showAll : bool) : M (list TokenAccount) :=
  try_catch
    (fetched <- fetchAccounts walletAddress ;;
     let '(tokenAccounts, metadataMap) := fetched in
     ret (tokensToShow showAll (scanDust_accounts metadataMap tokenAccounts)))
    (fun msg => print (ErrorMessage msg) ;; exit 1).

End Processors.

(* ================================================================= *)
(** ** Reading a trace *)

Definition confirmed (result : string + string) : bool :=
  match result with
  | inr _ => true
  | inl _ => false
  end.

(** The transactions submitted, in order, each with its result. *)
Fixpoint submissions (l : list Event) : list (Transaction * (string + string)) :=
  match l with
  | [] => []
  | Submitted tx _ result :: rest => (tx, result) :: submissions rest
  | _ :: rest => submissions rest
  end.

(** The instructions built, in order. *)
Fixpoint built (l : list Event) : list Instruction :=
  match l with
  | [] => []
  | Built i :: rest => i :: built rest
  | _ :: rest => built rest
  end.

(** The answers read from the operator, in order. *)
Fixpoint answers (l : list Event) : list string :=
  match l with
  | [] => []
  | Asked a :: rest => a :: answers rest
  | _ :: rest => answers rest
  end.

(** The trace of one attempt of a processor whose submission of [tx]
    ended in [result]: the instructions, the submission, the report. *)
Definition attemptEvents (keypair : Keypair) (tx : Transaction)
    (result : string + string) (done : string -> Output) (failed : string -> Output)
    : list Event :=
  map Built tx
  ++ [Submitted tx (publicKey keypair) result;
      Out (match result with inr signature => done signature | inl msg => failed msg end)].

Definition batchEvents (keypair : Keypair) (batch : list TokenAccount)
    (result : string + string) : list Event :=
  attemptEvents keypair (batchTransaction keypair batch) result
                (BatchClosed (List.length batch)) BatchFailed.

Definition accountEvents (keypair : Keypair) (account : TokenAccount)
    (result : string + string) : list Event :=
  attemptEvents keypair (accountInstructions keypair account) result
                AccountDone AccountFailed.

(** The batches that confirmed, given the result of each. *)
Fixpoint confirmedBatches (bs : list (list TokenAccount)) (results : list (string + string))
    : list (list TokenAccount) :=
  match bs, results with
  | b :: bs', r :: rs' =>
      if confirmed r then b :: confirmedBatches bs' rs' else confirmedBatches bs' rs'
  | _, _ => []
  end.

(** The whole trace of the batches with their results. *)
Fixpoint batchesEvents (keypair : Keypair) (bs : list (list TokenAccount))
    (results : list (string + string)) : list Event :=
  match bs, results with
  | b :: bs', r :: rs' => batchEvents keypair b r ++ batchesEvents keypair bs' rs'
  | _, _ => []
  end.

(** The recovered amount after the chunks [bs] confirmed: one addition of
    [reserveSOL] per chunk, in order. *)
Definition recoveredAfter (start : Num.number) (bs : list (list TokenAccount))
    : Num.number :=
  fold_left (fun r b => Num.add r (reserveSOL (List.length b))) bs start.

Definition closedAfter (start : nat) (bs : list (list TokenAccount)) : nat :=
  start + list_sum (map (@List.length TokenAccount) bs).

(** The lines of the dry run's listing, numbered from [i + 1]. *)
Fixpoint dryRunEntries (i : nat) (accounts : list TokenAccount) : list Event :=
  match accounts with
  | [] => []
  | account :: rest => Out (DryRunEntry (i + 1) account) :: dryRunEntries (i + 1) rest
  end.

(** The options with [--dry-run] set or cleared. *)
Definition withDryRun (b : bool) (o : Options) : Options :=
  mkOptions (keypair o) (yes o) b (interactive o) (burn o).

(** [ceil(n / m)] on the naturals. *)
Definition ceilDiv (n m : nat) : nat := (n + m - 1) / m.

(* ================================================================= *)
(** ** The interactive processor as the specification's state machine *)

Inductive Mode := ASK | AUTO_ALL | SKIP_ALL.

Inductive Command := CmdYes | CmdAll | CmdQuit | CmdOther.

(** The operator's line as a command: [y]/[yes], [a]/[all], [q]/[quit]
    in any letter case, anything else otherwise. *)
Definition readCommand (answer : string) : Command :=
  let a := toLowerCase answer in
  if ((a =? "y") || (a =? "yes"))%string then CmdYes
  else if ((a =? "a") || (a =? "all"))%string then CmdAll
  else if ((a =? "q") || (a =? "quit"))%string then CmdQuit
  else CmdOther.

(** What one holding undergoes. *)
Inductive Verdict := Processed | SkippedOne.

(** The transition in [ASK] on a command: the next mode and the verdict
    on the current holding. *)
Definition onCommand (c : Command) : Mode * Verdict :=
  match c with
  | CmdYes => (ASK, Processed)
  | CmdAll => (AUTO_ALL, Processed)
  | CmdQuit => (SKIP_ALL, SkippedOne)
  | CmdOther => (ASK, SkippedOne)
  end.

(** The machine over [n] holdings and the lines still to read: the
    verdict on each holding and the lines left, or [None] when a prompt
    finds no line. *)
Fixpoint machine (m : Mode) (n : nat) (inputs : list string)
    : option (list Verdict * list string) :=
  match n with
  | O => Some ([], inputs)
  | S n' =>
      match m with
      | AUTO_ALL =>
          option_map (fun r => (Processed :: fst r, snd r)) (machine AUTO_ALL n' inputs)
      | SKIP_ALL =>
          option_map (fun r => (SkippedOne :: fst r, snd r)) (machine SKIP_ALL n' inputs)
      | ASK =>
          match inputs with
          | [] => None
          | line :: rest =>
              let '(m', v) := onCommand (readCommand line) in
              option_map (fun r => (v :: fst r, snd r)) (machine m' n' rest)
          end
      end
  end.

(** The holdings with a given verdict, in order. *)
Fixpoint selectBy {A} (want : Verdict) (vs : list Verdict) (holdings : list A) : list A :=
  match vs, holdings with
  | v :: vs', h :: hs' =>
      match v, want with
      | Processed, Processed | SkippedOne, SkippedOne => h :: selectBy want vs' hs'
      | _, _ => selectBy want vs' hs'
      end
  | _, _ => []
  end.

(** The mode the two flags of [interactiveClean] stand for.  The code
    never sets both. *)
Definition modeOf (skipRemaining processAll : bool) : Mode :=
  if processAll then AUTO_ALL else if skipRemaining then SKIP_ALL else ASK.

(** The submissions among [results] that confirmed. *)
Definition confirmations (results : list (string + string)) : nat :=
  List.length (filter confirmed results).

(** The totals after [k] more accounts confirmed, one at a time. *)
Definition totalsAfter (t : Totals) (k : nat) : Totals :=
  mkTotals (totalClosed t + k)
           (Nat.iter k (fun r => Num.add r (reserveSOL 1)) (totalRecovered t)).

Section Outcome.
Context {P : Platform}.

(** What a run of the interactive loop from [st] with totals [t] must be,
    given what the machine makes of the same holdings and lines: blocked
    at a prompt when the machine lacks a line; otherwise ended, having
    read the lines the machine read, built and submitted one transaction
    for each holding the machine processes and for no other, and counted
    the confirmed ones. *)
Definition loopOutcome (kp : Keypair) (accounts : list TokenAccount) (t : Totals)
    (st : State) (run : Completion Totals * State)
    (m : option (list Verdict * list string)) : Prop :=
  match m with
  | None => fst run = Hang
  | Some (verdicts, rest) =>
      exists trace results st',
        run = (Normal (totalsAfter t (confirmations results)), st')
        /\ stdin st' = rest
        /\ log st' = log st ++ trace
        /\ answers trace ++ rest = stdin st
        /\ submissions trace
           = combine (map (accountInstructions kp) (selectBy Processed verdicts accounts))
                     results
        /\ List.length results = List.length (selectBy Processed verdicts accounts)
        /\ built trace
           = flat_map (accountInstructions kp) (selectBy Processed verdicts accounts)
  end.

End Outcome.

(* ================================================================= *)
(** ** A scripted platform *)

(** A platform whose network replays a script: the accounts the ledger
    reports, the metadata the service knows, and the result of each
    submission in turn (a confirmation once the script is over).  The file
    system holds three key files and the directory [/keys]. *)
Module Scripted.

Record ScriptedNet := mkNet {
  chain : list ParsedTokenAccount;
  service : MetadataMap;
  outcomes : list (string + string)
}.

Definition files : list (string * string) :=
  [ ("/home/op/id.json", " [1,2]  ");
    ("/keys/wallet.b58", "2g");
    ("/keys/notes.txt", "hello") ].

Fixpoint lookupFile (fs : list (string * string)) (p : string) : option string :=
  match fs with
  | [] => None
  | (q, content) :: rest => if (p =? q)%string then Some content else lookupFile rest p
  end.

Definition directories : list string := ["/keys"].

Definition isDirectory (p : string) : bool :=
  existsb (fun d => (p =? d)%string) directories.

Definition submit (tx : Transaction) (keypair : Keypair) (n : ScriptedNet)
    : (string + string) * ScriptedNet :=
  match outcomes n with
  | [] => (inr "signature", n)
  | r :: rest => (r, mkNet (chain n) (service n) rest)
  end.

#[export] Instance platform : Platform := {|
  Net := ScriptedNet;
  validPublicKey := fun s => negb (s =? "")%string;
  getParsedTokenAccountsByOwner := fun _ n => (inr (chain n), n);
  fetchTokenMetadata := fun _ n => (service n, n);
  sendAndConfirmTransaction := submit;
  HOME := Some "/home/op";
  path_join := fun a b => (a ++ b)%string;
  path_resolve := fun p => p;
  existsSync :=
    fun p => match lookupFile files p with Some _ => true | None => isDirectory p end;
  readFileSync :=
    fun p => match lookupFile files p with
             | Some c => inr c
             | None =>
                 if isDirectory p
                 then inl "EISDIR: illegal operation on a directory, read"
                 else inl "ENOENT: no such file or directory"
             end;
  JSON_parse_Uint8Array :=
    fun s => if (s =? "[1,2]")%string then Some [Byte.x01; Byte.x02] else None;
  bs58_decode :=
    fun s => if (s =? "2g")%string then Some [Byte.x03; Byte.x04] else None;
  Keypair_fromSecretKey :=
    fun bytes =>
      match bytes with
      | [Byte.x01; Byte.x02] => Some (mkKeypair "WalletOne" bytes)
      | [Byte.x03; Byte.x04] => Some (mkKeypair "WalletTwo" bytes)
      | _ => None
      end
|}.

(** An empty account, as the ledger reports it. *)
Definition emptyAccount (address : string) : ParsedTokenAccount :=
  mkParsed address ("mint-" ++ address)%string 0 6.

(** An account holding [amount] units of a six-decimal token. *)
Definition fundedAccount (address : string) (amount : Z) : ParsedTokenAccount :=
  mkParsed address ("mint-" ++ address)%string amount 6.

Definition noMetadata : MetadataMap := fun _ => None.

Definition start (lines : list string) (n : ScriptedNet) : State :=
  mkState lines n [].

(** A holding of a given tier, labelled by its address. *)
Definition holding (label : string) (tier : RiskLevel) : TokenAccount :=
  mkTokenAccount label ("mint-" ++ label)%string 0 6 true None tier None.

Definition thirteen : list TokenAccount :=
  map (fun l => holding l LOW)
      ["a01"; "a02"; "a03"; "a04"; "a05"; "a06"; "a07"; "a08"; "a09"; "a10";
       "a11"; "a12"; "a13"].

Definition four : list TokenAccount :=
  [holding "h1" LOW; holding "h2" LOW; holding "h3" LOW; holding "h4" LOW].

Definition walletOne : Keypair := mkKeypair "WalletOne" [Byte.x01; Byte.x02].

(** A network that reports no account and confirms everything. *)
Definition quietNet : ScriptedNet := mkNet [] noMetadata [].

(** A wallet with two empty accounts. *)
Definition twoEmpty : ScriptedNet :=
  mkNet [emptyAccount "e1"; emptyAccount "e2"] noMetadata [].

(** A metadata service that knows one spam token. *)
Definition spamService : MetadataMap :=
  fun m => if (m =? "mint-spam")%string
           then Some (mkTokenMetadata "Free Airdrop" "FREE" None)
           else None.

(** [clean <wallet> --keypair ~/id.json --yes]. *)
Definition cleanWithKey : Options :=
  mkOptions (Some "~/id.json") true false false false.

End Scripted.

#[local] Existing Instance Scripted.platform.

(* ================================================================= *)
(** ** [fetchTokenMetadata] *)

(** The body of the source's [fetchTokenMetadata].  The platform above
    carries the function as a whole; here it is taken apart, over the one
    request it sends. *)
Module Metadata.

(** One item of the service's answer, with the optional chains of the
    source followed: [item.onChainMetadata?.metadata?.data?.name] and so
    on.  [None] is [undefined]. *)
Record Item := mkItem {
  account : string;
  onChainName : option string;
  onChainSymbol : option string;
  legacyName : option string;
  legacySymbol : option string;
  legacyLogoURI : option string
}.

(** What [await fetch(...)] followed by [await response.json()] comes to:
    one of them throws, [response.ok] is false, or the items arrive. *)
Inductive Response :=
| Rejected
| NotOk
| Ok (data : list Item).

(** [a || b] for an optional string [a]: [b] when [a] is undefined or
    empty. *)
Definition orElse (a : option string) (b : string) : string :=
  match a with
  | None => b
  | Some EmptyString => b
  | Some s => s
  end.

Definition NUL : ascii := Ascii.zero.

(** [s.replace(/\0/g, "")]. *)
Fixpoint removeNul (s : string) : string :=
  match s with
  | EmptyString => EmptyString
  | String c rest =>
      if Ascii.eqb c NUL then removeNul rest else String c (removeNul rest)
  end.

(** [new Map()] and [metadataMap.set(k, v)]. *)
Definition emptyMap : MetadataMap := fun _ => None.

Definition Map_set (k : string) (v : TokenMetadata) (m : MetadataMap) : MetadataMap :=
  fun k' => if (k' =? k)%string then Some v else m k'.

(** The value stored for one item. *)
Definition entry (item : Item) : TokenMetadata :=
  let name := orElse (onChainName item) (orElse (legacyName item) "Unknown Token") in
  let symbol := orElse (onChainSymbol item) (orElse (legacySymbol item) "???") in
  mkTokenMetadata (trim (removeNul name)) (trim (removeNul symbol))
                  (legacyLogoURI item).

(** [for (const item of data) metadataMap.set(item.account, ...)]. *)
Definition setAll (data : list Item) (m : MetadataMap) : MetadataMap :=
  fold_left (fun m item => Map_set (account item) (entry item) m) data m.

(** The map returned, and the bodies of the requests sent ([mintAccounts]
    of each).  [post] is the service as the one request meets it. *)
Definition fetchTokenMetadata (post : list string -> Response) (mints : list string)
    : MetadataMap * list (list string) :=
  if List.length mints =? 0 then (emptyMap, [])
  else
    let body := firstn 100 mints in
    (match post body with
     | Ok data => setAll data emptyMap
     | Rejected | NotOk => emptyMap
     end,
     [body]).

(** The characters of a string. *)
Fixpoint hasNul (s : string) : bool :=
  match s with
  | EmptyString => false
  | String c rest => Ascii.eqb c NUL || hasNul rest
  end.

(** A service that answers for the mints it is asked about, naming each
    token after its mint. *)
Definition echo (body : list string) : Response :=
  Ok (map (fun m => mkItem m (Some m) None None None None) body).

End Metadata.

(** A string that does not start with white space. *)
Definition noLeadingSpace (s : string) : Prop :=
  match s with
  | EmptyString => True
  | String c _ => isSpace c = false
  end.

(* ================================================================= *)
(** ** Reading instructions *)

(** The instruction is authorised by [wallet], and what it releases goes
    to [wallet]. *)
Definition authorisedBy (wallet : PublicKey) (i : Instruction) : Prop :=
  match i with
  | BurnInstruction _ _ owner _ => owner = wallet
  | CloseAccountInstruction _ destination authority =>
      destination = wallet /\ authority = wallet
  end.

(** The accounts closed by a sequence of instructions, in order. *)
Fixpoint closes (l : list Instruction) : list PublicKey :=
  match l with
  | [] => []
  | CloseAccountInstruction account _ _ :: rest => account :: closes rest
  | BurnInstruction _ _ _ _ :: rest => closes rest
  end.

(* ================================================================= *)
(** ** More scripted cases *)

Module Scenario.

(** A network on which every submission fails. *)
Definition failingNet : Scripted.ScriptedNet :=
  Scripted.mkNet [] Scripted.noMetadata (repeat (inl "rpc down") 8).

(** A wallet with a dust balance, an empty account and a large balance. *)
Definition mixedWallet : Scripted.ScriptedNet :=
  Scripted.mkNet
    [Scripted.fundedAccount "dust" 50; Scripted.emptyAccount "e1";
     Scripted.fundedAccount "big" 5000000]
    Scripted.noMetadata [].

(** A wallet whose only account holds a large balance. *)
Definition fullWallet : Scripted.ScriptedNet :=
  Scripted.mkNet [Scripted.fundedAccount "big" 5000000] Scripted.noMetadata [].

(** [clean <wallet> --yes], [clean <wallet> --keypair ~/id.json],
    [clean <wallet> --keypair /keys/notes.txt --yes] and
    [clean <wallet> --keypair ~/id.json --yes --burn]. *)
Definition cleanNoKey : Options := mkOptions None true false false false.
Definition cleanAsk : Options := mkOptions (Some "~/id.json") false false false false.
Definition cleanBadKey : Options :=
  mkOptions (Some "/keys/notes.txt") true false false false.
Definition cleanBurn : Options := mkOptions (Some "~/id.json") true false false true.

End Scenario.

Section Safety.
Context {P : Platform}.

(** What every run of the interactive loop from [st] comes to, ended or
    blocked: the holdings it has processed are some of [accounts], in
    order; it has built and submitted their transactions and no other; it
    has read from the front of the input, at most one line per holding;
    and it has ended with a count that grew by at most one per processed
    holding, or it is blocked with no line left. *)
Definition loopSafe (kp : Keypair) (accounts : list TokenAccount) (t : Totals)
    (st : State) (run : Completion Totals * State) : Prop :=
  exists verdicts read,
    built (log (snd run))
    = built (log st)
      ++ flat_map (accountInstructions kp) (selectBy Processed verdicts accounts)
    /\ map fst (submissions (log (snd run)))
       = map fst (submissions (log st))
         ++ map (accountInstructions kp) (selectBy Processed verdicts accounts)
    /\ answers (log (snd run)) = answers (log st) ++ read
    /\ stdin st = read ++ stdin (snd run)
    /\ List.length read <= List.length accounts
    /\ ((exists t', fst run = Normal t'
                    /\ totalClosed t <= totalClosed t'
                       <= totalClosed t
                          + List.length (selectBy Processed verdicts accounts))
        \/ (fst run = Hang /\ stdin (snd run) = [])).

End Safety.

(* ================================================================= *)
(** * Properties *)

(* ================================================================= *)
(** ** The classifier *)

(** The literal [0.0001] is the binary64 value nearest to [1/10000]: it is
    the rounded quotient, and it lies within half a unit in the last place
    ([2^-67]) of the rational. *)
Lemma lit_0_0001_nearest :
  Num.div (Num.ofZ 1) (Num.ofZ 10000) = Num.lit_0_0001
  /\ (2 * Z.abs (7378697629483821 * 10000 - 2 ^ 66) < 10000)%Z.
Proof. split; [vm_compute; reflexivity | vm_compute; reflexivity]. Qed.

(** [Number(9999999999999999n)] is [10000000000000000]. *)
Lemma Number_rounds_above_2_53 :
  Num.ofZ 9999999999999999 = Num.ofZ 10000000000000000.
Proof. vm_compute. reflexivity. Qed.

Lemma spamLoop_existsb (indicators : list string) (n s : string) :
  spamLoop indicators n s =
  if existsb (fun w => includes n w || includes s w) indicators
  then Some (mkRisk HIGH (Some "Suspicious name (potential scam/airdrop)"))
  else None.
Proof.
  induction indicators as [|w rest IH]; simpl.
  - reflexivity.
  - destruct (includes n w || includes s w); simpl; [reflexivity | exact IH].
Qed.

Lemma spamLoop_spamMatch (metadata : option TokenMetadata) :
  spamLoop SPAM_INDICATORS
    (match metadata with Some m => toLowerCase (name m) | None => "" end)
    (match metadata with Some m => toLowerCase (symbol m) | None => "" end) =
  if spamMatch metadata
  then Some (mkRisk HIGH (Some "Suspicious name (potential scam/airdrop)"))
  else None.
Proof.
  destruct metadata as [m|].
  - apply spamLoop_existsb.
  - reflexivity.
Qed.

(** C2, as the code has it: [classifyTokenRisk] returns for every input,
    its level is the five rules taken in order over the binary64 quotient
    [Number(balance) / Math.pow(10, decimals)], a reason comes with every
    level, and a spam-matching name gives [HIGH] whatever the balance, an
    empty account included. *)
Theorem classifyTokenRisk_five_rules (mint : string) (balance : Z) (decimals : N)
    (metadata : option TokenMetadata) :
  level (classifyTokenRisk mint balance decimals metadata)
    = classify_reference_binary64 balance decimals metadata
  /\ (exists text, reason (classifyTokenRisk mint balance decimals metadata) = Some text)
  /\ (spamMatch metadata = true ->
      level (classifyTokenRisk mint 0 decimals metadata) = HIGH).
Proof.
  unfold classifyTokenRisk, classify_reference_binary64.
  rewrite !spamLoop_spamMatch.
  destruct (spamMatch metadata).
  - simpl. repeat split; eauto.
  - split; [|split; [|discriminate]].
    + destruct (Num.ltb Num.zero _ && Num.ltb _ Num.lit_0_0001); [reflexivity|].
      destruct (balance =? 0)%Z; [reflexivity|].
      destruct (Num.ltb _ Num.one); reflexivity.
    + destruct (Num.ltb Num.zero _ && Num.ltb _ Num.lit_0_0001); [simpl; eauto|].
      destruct (balance =? 0)%Z; [simpl; eauto|].
      destruct (Num.ltb _ Num.one); simpl; eauto.
Qed.

(** C2 over the exact quotient [rawBalance / 10^decimals] does not hold:
    with [rawBalance = 9999999999999999] and [decimals = 20] the quotient
    is below [0.0001], so the rules give [HIGH]; the code converts the
    balance to [1e16], finds its quotient equal to [0.0001], and answers
    [MEDIUM]. *)
Lemma classifyTokenRisk_not_rational_rules :
  level (classifyTokenRisk "mint" 9999999999999999 20 None) = MEDIUM
  /\ classify_reference 9999999999999999 20 None = HIGH.
Proof. split; vm_compute; reflexivity. Qed.

(** The two readings agree on everyday values, and rule 1 beats rule 3. *)
Example classify_examples :
  level (classifyTokenRisk "m" 0 6 None) = LOW
  /\ level (classifyTokenRisk "m" 99 6 None) = HIGH
  /\ level (classifyTokenRisk "m" 100 6 None) = MEDIUM
  /\ level (classifyTokenRisk "m" 999999 6 None) = MEDIUM
  /\ level (classifyTokenRisk "m" 1000000 6 None) = UNKNOWN
  /\ level (classifyTokenRisk "m" 0 6 (Some (mkTokenMetadata "FREE Airdrop" "X" None))) = HIGH
  /\ classify_reference 0 6 (Some (mkTokenMetadata "FREE Airdrop" "X" None)) = HIGH
  /\ classify_reference 100 6 None = MEDIUM.
Proof. repeat split; vm_compute; reflexivity. Qed.

(* ================================================================= *)
(** ** The scanner's order *)

Lemma Array_insert_perm {A} (cmp : A -> A -> Z) (x : A) (l : list A) :
  Permutation (x :: l) (Array_insert cmp x l).
Proof.
  induction l as [|y l IH]; simpl.
  - apply Permutation_refl.
  - destruct (cmp x y <=? 0)%Z.
    + apply Permutation_refl.
    + eapply perm_trans; [apply perm_swap | apply perm_skip, IH].
Qed.

Lemma Array_sort_perm {A} (cmp : A -> A -> Z) (l : list A) :
  Permutation l (Array_sort cmp l).
Proof.
  induction l as [|x l IH]; simpl.
  - apply perm_nil.
  - eapply perm_trans; [apply perm_skip, IH | apply Array_insert_perm].
Qed.

Lemma Array_insert_sorted (x : TokenAccount) (l : list TokenAccount) :
  StronglySorted riskLe l -> StronglySorted riskLe (Array_insert compareRisk x l).
Proof.
  induction 1 as [|y l Hs IH Hy]; simpl.
  - repeat constructor.
  - destruct (compareRisk x y <=? 0)%Z eqn:E.
    + apply Z.leb_le in E. unfold compareRisk in E.
      constructor; [constructor; assumption|].
      constructor; [unfold riskLe; lia|].
      eapply Forall_impl; [|exact Hy].
      unfold riskLe. intros; lia.
    + apply Z.leb_gt in E. unfold compareRisk in E.
      constructor; [exact IH|].
      eapply Permutation_Forall; [apply Array_insert_perm|].
      constructor; [unfold riskLe; lia | exact Hy].
Qed.

Lemma Array_sort_sorted (l : list TokenAccount) :
  StronglySorted riskLe (Array_sort compareRisk l).
Proof.
  induction l as [|x l IH]; simpl.
  - constructor.
  - apply Array_insert_sorted, IH.
Qed.

Lemma riskOrder_inj (a b : RiskLevel) : riskOrder a = riskOrder b -> a = b.
Proof. destruct a, b; simpl; intros H; try reflexivity; discriminate. Qed.

Lemma RiskLevel_eqb_eq (a b : RiskLevel) : RiskLevel_eqb a b = true <-> a = b.
Proof. destruct a, b; simpl; split; intros H; try reflexivity; discriminate. Qed.

(** Insertion moves [x] only past accounts of other tiers. *)
Lemma Array_insert_tier (tier : RiskLevel) (x : TokenAccount) (l : list TokenAccount) :
  filter (inTier tier) (Array_insert compareRisk x l) = filter (inTier tier) (x :: l).
Proof.
  induction l as [|y l IH]; simpl.
  - reflexivity.
  - destruct (compareRisk x y <=? 0)%Z eqn:E.
    + reflexivity.
    + simpl. rewrite IH. simpl.
      apply Z.leb_gt in E. unfold compareRisk in E.
      destruct (inTier tier x) eqn:Hx, (inTier tier y) eqn:Hy; try reflexivity.
      unfold inTier in Hx, Hy. apply RiskLevel_eqb_eq in Hx, Hy.
      rewrite Hx, Hy in E. lia.
Qed.

Lemma Array_sort_tier (tier : RiskLevel) (l : list TokenAccount) :
  filter (inTier tier) (Array_sort compareRisk l) = filter (inTier tier) l.
Proof.
  induction l as [|x l IH]; simpl.
  - reflexivity.
  - rewrite Array_insert_tier. simpl. rewrite IH. reflexivity.
Qed.

(** C3: the list [scanDust] sorts is in ascending priority
    [HIGH:0, MEDIUM:1, LOW:2, UNKNOWN:3], holds the accounts of the ledger
    query and no other, and keeps the accounts of each tier in the order
    of the ledger query; accounts [A, B, C, D] of tiers
    [MEDIUM, HIGH, LOW, HIGH] come out as [B, D, A, C]. *)
Theorem scanDust_sorted_stable (metadataMap : MetadataMap)
    (tokenAccounts : list ParsedTokenAccount) :
  let ledger := map (toTokenAccount metadataMap) tokenAccounts in
  let sorted := scanDust_accounts metadataMap tokenAccounts in
  StronglySorted riskLe sorted
  /\ Permutation ledger sorted
  /\ (forall tier, filter (inTier tier) sorted = filter (inTier tier) ledger)
  /\ (forall A B C D,
        riskLevel A = MEDIUM -> riskLevel B = HIGH ->
        riskLevel C = LOW -> riskLevel D = HIGH ->
        Array_sort compareRisk [A; B; C; D] = [B; D; A; C]).
Proof.
  unfold scanDust_accounts. repeat split.
  - apply Array_sort_sorted.
  - apply Array_sort_perm.
  - intros tier. apply Array_sort_tier.
  - intros [] [] [] []; simpl; intros; subst; reflexivity.
Qed.

(** The four labelled holdings of the specification's example. *)
Example sort_MEDIUM_HIGH_LOW_HIGH :
  map pubkey
      (Array_sort compareRisk
         [Scripted.holding "A" MEDIUM; Scripted.holding "B" HIGH;
          Scripted.holding "C" LOW; Scripted.holding "D" HIGH])
  = ["B"; "D"; "A"; "C"].
Proof. reflexivity. Qed.

(* ================================================================= *)
(** ** The instructions of one account *)

(** Without [--burn] only empty accounts are selected. *)
Lemma toProcess_without_burn (options : Options) (metadataMap : MetadataMap)
    (tokenAccounts : list ParsedTokenAccount) (a : TokenAccount) :
  burn options = false ->
  In a (toProcess options (map (toTokenAccount metadataMap) tokenAccounts)) ->
  balance a = 0%Z.
Proof.
  intros Hb Ha. unfold toProcess in Ha. rewrite Hb, app_nil_r in Ha.
  apply filter_In in Ha. destruct Ha as [Hin Hc].
  apply in_map_iff in Hin. destruct Hin as [p [<- _]].
  simpl in Hc. apply Z.eqb_eq in Hc. exact Hc.
Qed.

(** C4: for an account with a positive balance the processors build one
    burn of the whole balance of the account's mint from the account,
    authorised by the credential, then one close whose destination and
    authority are the credential's address; for an empty account they
    build the close alone; whatever burn they build is of the whole
    balance; and for an account selected without [--burn] they build the
    close alone.  The burn flag acts through the selection: the code that
    builds the instructions reads the balance only. *)
Theorem accountInstructions_burn_then_close (keypair : Keypair) (account : TokenAccount) :
  ((0 < balance account)%Z ->
     accountInstructions keypair account =
       [BurnInstruction (pubkey account) (mint account) (publicKey keypair)
                        (balance account);
        CloseAccountInstruction (pubkey account) (publicKey keypair)
                                (publicKey keypair)])
  /\ (balance account = 0%Z ->
        accountInstructions keypair account =
          [CloseAccountInstruction (pubkey account) (publicKey keypair)
                                   (publicKey keypair)])
  /\ (forall from m owner amount,
        In (BurnInstruction from m owner amount) (accountInstructions keypair account) ->
        amount = balance account /\ from = pubkey account /\ m = mint account
        /\ owner = publicKey keypair)
  /\ (forall options metadataMap tokenAccounts,
        burn options = false ->
        In account (toProcess options (map (toTokenAccount metadataMap) tokenAccounts)) ->
        accountInstructions keypair account =
          [CloseAccountInstruction (pubkey account) (publicKey keypair)
                                   (publicKey keypair)]).
Proof.
  assert (Hempty : balance account = 0%Z ->
            accountInstructions keypair account =
              [CloseAccountInstruction (pubkey account) (publicKey keypair)
                                       (publicKey keypair)]).
  { intros H. unfold accountInstructions. rewrite H. reflexivity. }
  split; [|split; [exact Hempty | split]].
  - intros H. unfold accountInstructions.
    apply Z.ltb_lt in H. rewrite H. reflexivity.
  - intros from m owner amount H. unfold accountInstructions in H.
    destruct (0 <? balance account)%Z; simpl in H.
    + destruct H as [H|[H|[]]]; [inversion H; auto | discriminate].
    + destruct H as [H|[]]; discriminate.
  - intros options metadataMap tokenAccounts Hb Hin. apply Hempty.
    eapply toProcess_without_burn; eassumption.
Qed.

(* ================================================================= *)
(** ** The batches of [batchProcess] *)

Lemma batches_concat (accounts : list TokenAccount) (i : nat) :
  concat (batches accounts i) = skipn i accounts.
Proof.
  funelim (batches accounts i).
  - simpl. rewrite H. unfold slice.
    replace (i + batchSize - i) with batchSize by lia.
    rewrite Nat.add_comm, <- skipn_skipn. apply firstn_skipn.
  - simpl. symmetry. apply skipn_all2. lia.
Qed.

Lemma ceilDiv_step (d : nat) :
  0 < d -> S (ceilDiv (d - batchSize) batchSize) = ceilDiv d batchSize.
Proof.
  unfold ceilDiv, batchSize. intros Hd.
  destruct (le_lt_dec 5 d) as [Hge|Hlt].
  - replace (d + 5 - 1) with ((d - 5 + 5 - 1) + 1 * 5) by lia.
    rewrite Nat.div_add by discriminate. lia.
  - do 5 (destruct d as [|d]; [try lia; reflexivity|]). lia.
Qed.

Lemma ceilDiv_bounds (n : nat) :
  n <= ceilDiv n batchSize * batchSize < n + batchSize.
Proof.
  unfold ceilDiv, batchSize.
  pose proof (Nat.div_mod_eq (n + 5 - 1) 5) as E.
  pose proof (Nat.mod_upper_bound (n + 5 - 1) 5 ltac:(discriminate)) as B.
  lia.
Qed.

Lemma batches_length (accounts : list TokenAccount) (i : nat) :
  List.length (batches accounts i) = ceilDiv (List.length accounts - i) batchSize.
Proof.
  funelim (batches accounts i).
  - cbn [List.length]. rewrite H.
    replace (List.length accounts - (i + batchSize))
      with (List.length accounts - i - batchSize) by lia.
    apply ceilDiv_step. lia.
  - replace (List.length accounts - i) with 0 by lia. reflexivity.
Qed.

Lemma batches_done (accounts : list TokenAccount) (i : nat) :
  List.length accounts <= i -> batches accounts i = [].
Proof.
  intros H. funelim (batches accounts i); [lia | reflexivity].
Qed.

Lemma slice_length (accounts : list TokenAccount) (i : nat) :
  List.length (slice i (i + batchSize) accounts)
  = Nat.min batchSize (List.length accounts - i).
Proof.
  unfold slice. rewrite length_firstn, length_skipn.
  replace (i + batchSize - i) with batchSize by lia. reflexivity.
Qed.

Lemma batches_sizes (accounts : list TokenAccount) (i : nat) :
  Forall (fun b => 1 <= List.length b <= batchSize) (batches accounts i)
  /\ Forall (fun b => List.length b = batchSize) (removelast (batches accounts i)).
Proof.
  funelim (batches accounts i).
  - destruct H as [H1 H2]. split.
    + constructor; [|exact H1].
      rewrite slice_length. unfold batchSize. lia.
    + cbn [removelast]. destruct (batches accounts (i + batchSize)) eqn:E.
      * constructor.
      * constructor; [|exact H2].
        destruct (le_lt_dec (List.length accounts) (i + batchSize)) as [Hle|Hlt].
        -- rewrite (batches_done _ _ Hle) in E. discriminate.
        -- rewrite slice_length. unfold batchSize in *. lia.
  - split; constructor.
Qed.

(** C7: the loop of [batchProcess] cuts [N] accounts into
    [ceil(N / 5)] batches, which put end to end are the accounts again, so
    their sizes add up to [N]; every batch but the last has five accounts
    and no batch is empty or longer; thirteen accounts give batches of
    [5, 5, 3]. *)
Theorem batches_partition (accounts : list TokenAccount) :
  let chunks := batches accounts 0 in
  let N := List.length accounts in
  List.length chunks = ceilDiv N batchSize
  /\ N <= List.length chunks * batchSize < N + batchSize
  /\ concat chunks = accounts
  /\ list_sum (map (@List.length _) chunks) = N
  /\ Forall (fun b => List.length b = batchSize) (removelast chunks)
  /\ Forall (fun b => 1 <= List.length b <= batchSize) chunks
  /\ (N = 13 -> map (@List.length _) chunks = [5; 5; 3]).
Proof.
  cbv zeta.
  assert (L : List.length (batches accounts 0) = ceilDiv (List.length accounts) batchSize).
  { rewrite batches_length, Nat.sub_0_r. reflexivity. }
  assert (C : concat (batches accounts 0) = accounts) by apply batches_concat.
  repeat split.
  - exact L.
  - rewrite L. apply ceilDiv_bounds.
  - rewrite L. apply ceilDiv_bounds.
  - exact C.
  - rewrite <- C at 2. symmetry. apply length_concat.
  - apply batches_sizes.
  - apply batches_sizes.
  - intros H. do 14 (destruct accounts as [|? accounts]; try discriminate).
    reflexivity.
Qed.

(** Thirteen holdings, concretely. *)
Example thirteen_holdings_5_5_3 :
  map (@List.length _) (batches Scripted.thirteen 0) = [5; 5; 3].
Proof. reflexivity. Qed.

(* ================================================================= *)
(** ** The credential loader *)

Section LoadKeypairFacts.
Context {P : Platform}.

(** The two messages of [loadKeypair] differ. *)
Lemma not_found_is_not_invalid_format (resolvedPath : string) :
  ("Keypair file not found: " ++ resolvedPath)%string <> INVALID_KEYPAIR_FORMAT.
Proof. discriminate. Qed.

(** C9: when the resolved path does not exist, [loadKeypair] fails with
    the file-not-found error, which is not the invalid-format error; when
    the file exists and the read throws, it fails with the error of the
    read.  When the file is read, it returns the key the JSON array in the
    trimmed content decodes to; failing that, the key the base58 string
    decodes to; and it throws the invalid-format error exactly when
    neither decodes. *)
Theorem loadKeypair_two_encodings (keypairPath : string) :
  let resolvedPath := resolveKeypairPath keypairPath in
  (existsSync resolvedPath = false ->
     loadKeypair keypairPath
     = Threw ("Keypair file not found: " ++ resolvedPath)%string
     /\ loadKeypair keypairPath <> Threw INVALID_KEYPAIR_FORMAT)
  /\ (forall msg,
        existsSync resolvedPath = true ->
        readFileSync resolvedPath = inl msg ->
        loadKeypair keypairPath = Threw msg)
  /\ (forall raw,
        existsSync resolvedPath = true ->
        readFileSync resolvedPath = inr raw ->
        let content := trim raw in
        loadKeypair keypairPath =
          match decodesAsJsonArray content with
          | Some k => Returned k
          | None =>
              match decodesAsBase58 content with
              | Some k => Returned k
              | None => Threw INVALID_KEYPAIR_FORMAT
              end
          end
        /\ (loadKeypair keypairPath = Threw INVALID_KEYPAIR_FORMAT <->
            decodesAsJsonArray content = None /\ decodesAsBase58 content = None)).
Proof.
  cbv zeta. unfold loadKeypair. split; [|split].
  - intros Hex. rewrite Hex. cbn [negb]. split; [reflexivity|].
    intros E.
    apply (not_found_is_not_invalid_format (resolveKeypairPath keypairPath)).
    congruence.
  - intros msg Hex Hread. rewrite Hex, Hread. reflexivity.
  - intros raw Hex Hread. rewrite Hex, Hread. cbn [negb].
    unfold decodesAsJsonArray, decodesAsBase58.
    destruct (JSON_parse_Uint8Array _) as [b1|]; cbn [ofOption bindT tryT].
    + destruct (Keypair_fromSecretKey b1) as [k1|]; cbn [ofOption bindT tryT].
      * split; [reflexivity|]. split; [discriminate | intros [H _]; discriminate].
      * destruct (bs58_decode _) as [b2|]; cbn [ofOption bindT tryT].
        -- destruct (Keypair_fromSecretKey b2) as [k2|]; cbn [ofOption bindT tryT].
           ++ split; [reflexivity|].
              split; [discriminate | intros [_ H]; discriminate].
           ++ split; [reflexivity|]. split; auto.
        -- split; [reflexivity|]. split; auto.
    + destruct (bs58_decode _) as [b2|]; cbn [ofOption bindT tryT].
      * destruct (Keypair_fromSecretKey b2) as [k2|]; cbn [ofOption bindT tryT].
        -- split; [reflexivity|]. split; [discriminate | intros [_ H]; discriminate].
        -- split; [reflexivity|]. split; auto.
      * split; [reflexivity|]. split; auto.
Qed.

End LoadKeypairFacts.

(** The scripted files: a JSON array under the home directory, read and
    decoded at the first attempt. *)
Lemma loadKeypair_two_encodings_witness :
  loadKeypair "~/id.json" = Returned Scripted.walletOne
  /\ (loadKeypair "~/id.json" = Threw INVALID_KEYPAIR_FORMAT <->
      decodesAsJsonArray "[1,2]" = None /\ decodesAsBase58 "[1,2]" = None).
Proof.
  exact (proj2 (proj2 (@loadKeypair_two_encodings Scripted.platform "~/id.json"))
           " [1,2]  " eq_refl eq_refl).
Defined.

(** Two failures of [loadKeypair] that are not the invalid-format error,
    though no key is decoded from either encoding: a path that does not
    exist, and a directory, which exists and whose read throws. *)
Lemma loadKeypair_other_failures :
  existsSync (resolveKeypairPath "/keys/none") = false
  /\ loadKeypair "/keys/none" = Threw "Keypair file not found: /keys/none"
  /\ loadKeypair "/keys/none" <> Threw INVALID_KEYPAIR_FORMAT
  /\ (forall k, loadKeypair "/keys/none" <> Returned k)
  /\ existsSync (resolveKeypairPath "/keys") = true
  /\ loadKeypair "/keys" = Threw "EISDIR: illegal operation on a directory, read"
  /\ loadKeypair "/keys" <> Threw INVALID_KEYPAIR_FORMAT
  /\ (forall k, loadKeypair "/keys" <> Returned k).
Proof. repeat split; try reflexivity; try discriminate. Qed.

Example loadKeypair_examples :
  loadKeypair "/keys/wallet.b58" = Returned (mkKeypair "WalletTwo" [Byte.x03; Byte.x04])
  /\ loadKeypair "/keys/notes.txt" = Threw INVALID_KEYPAIR_FORMAT
  /\ decodesAsJsonArray "hello" = None
  /\ decodesAsBase58 "hello" = None.
Proof. repeat split. Qed.

(* ================================================================= *)
(** ** The selection of [cleanDust] *)



(* ================================================================= *)
(** ** Running the processors *)

Lemma submissions_app (l1 l2 : list Event) :
  submissions (l1 ++ l2) = submissions l1 ++ submissions l2.
Proof.
  induction l1 as [|e l1 IH]; simpl; [reflexivity|].
  destruct e; simpl; rewrite ?IH; reflexivity.
Qed.

Lemma built_app (l1 l2 : list Event) : built (l1 ++ l2) = built l1 ++ built l2.
Proof.
  induction l1 as [|e l1 IH]; simpl; [reflexivity|].
  destruct e; simpl; rewrite ?IH; reflexivity.
Qed.

Lemma answers_app (l1 l2 : list Event) : answers (l1 ++ l2) = answers l1 ++ answers l2.
Proof.
  induction l1 as [|e l1 IH]; simpl; [reflexivity|].
  destruct e; simpl; rewrite ?IH; reflexivity.
Qed.

Lemma built_map_Built (ixs : list Instruction) : built (map Built ixs) = ixs.
Proof. induction ixs as [|i ixs IH]; simpl; [|rewrite IH]; reflexivity. Qed.

Lemma submissions_map_Built (ixs : list Instruction) : submissions (map Built ixs) = [].
Proof. induction ixs as [|i ixs IH]; simpl; auto. Qed.

Lemma answers_map_Built (ixs : list Instruction) : answers (map Built ixs) = [].
Proof. induction ixs as [|i ixs IH]; simpl; auto. Qed.

Lemma attemptEvents_read (kp : Keypair) (tx : Transaction) (r : string + string)
    (done failed : string -> Output) :
  built (attemptEvents kp tx r done failed) = tx
  /\ submissions (attemptEvents kp tx r done failed) = [(tx, r)]
  /\ answers (attemptEvents kp tx r done failed) = [].
Proof.
  unfold attemptEvents.
  rewrite built_app, submissions_app, answers_app.
  rewrite built_map_Built, submissions_map_Built, answers_map_Built.
  simpl. rewrite app_nil_r. auto.
Qed.

Section RunFacts.
Context {P : Platform}.

Lemma addAll_run (ixs : list Instruction) (st : State) :
  addAll ixs st = (Normal tt, mkState (stdin st) (net st) (log st ++ map Built ixs)).
Proof.
  revert st. induction ixs as [|i ixs IH]; intros st; simpl.
  - rewrite app_nil_r. destruct st; reflexivity.
  - unfold bind, emit. rewrite IH. simpl. rewrite <- app_assoc. reflexivity.
Qed.

Lemma addBatch_run (kp : Keypair) (batch : list TokenAccount) (st : State) :
  addBatch kp batch st
  = (Normal tt, mkState (stdin st) (net st)
                        (log st ++ map Built (batchTransaction kp batch))).
Proof.
  revert st. induction batch as [|a batch IH]; intros st; simpl.
  - rewrite app_nil_r. destruct st; reflexivity.
  - unfold bind. rewrite addAll_run, IH. simpl.
    unfold batchTransaction. simpl. rewrite map_app, <- app_assoc. reflexivity.
Qed.

(** One batch: the submission's result decides between the two reports
    and between the two totals; nothing is thrown further. *)
Lemma processBatch_run (kp : Keypair) (batch : list TokenAccount) (t : Totals)
    (st : State) :
  let r := fst (sendAndConfirmTransaction (batchTransaction kp batch) kp (net st)) in
  let net' := snd (sendAndConfirmTransaction (batchTransaction kp batch) kp (net st)) in
  processBatch kp batch t st
  = (Normal (if confirmed r
             then mkTotals (totalClosed t + List.length batch)
                           (Num.add (totalRecovered t) (reserveSOL (List.length batch)))
             else t),
     mkState (stdin st) net' (log st ++ batchEvents kp batch r)).
Proof.
  cbv zeta. unfold processBatch, try_catch, bind. rewrite addBatch_run.
  unfold send, print, emit, ret. simpl.
  destruct (sendAndConfirmTransaction _ kp (net st)) as [[msg|sig] net']; simpl;
    unfold batchEvents, attemptEvents; rewrite <- !app_assoc; reflexivity.
Qed.

Lemma batchLoop_fold (kp : Keypair) (accounts : list TokenAccount) (i : nat) :
  forall totals st,
    batchLoop kp accounts i totals st
    = foldBatches kp (batches accounts i) totals st.
Proof.
  funelim (batches accounts i); intros totals st.
  - simp batchLoop. rewrite Heq. simpl. unfold bind.
    destruct (processBatch kp _ totals st) as [[t'| | |] s']; auto.
  - simp batchLoop. rewrite Heq. reflexivity.
Qed.

Lemma closedAfter_cons (n : nat) (b : list TokenAccount) (bs : list (list TokenAccount)) :
  closedAfter (n + List.length b) bs = closedAfter n (b :: bs).
Proof. unfold closedAfter. simpl. lia. Qed.

Lemma foldBatches_run (kp : Keypair) (bs : list (list TokenAccount)) :
  forall t st,
  exists results st',
    foldBatches kp bs t st
    = (Normal (mkTotals (closedAfter (totalClosed t) (confirmedBatches bs results))
                        (recoveredAfter (totalRecovered t) (confirmedBatches bs results))),
       st')
    /\ List.length results = List.length bs
    /\ stdin st' = stdin st
    /\ log st' = log st ++ batchesEvents kp bs results.
Proof.
  induction bs as [|b bs IH]; intros t st.
  - exists [], st. simpl. unfold ret, closedAfter, recoveredAfter. simpl.
    rewrite Nat.add_0_r, app_nil_r. destruct t; auto.
  - simpl. unfold bind. rewrite processBatch_run.
    set (r := fst (sendAndConfirmTransaction (batchTransaction kp b) kp (net st))).
    match goal with |- context [foldBatches kp bs ?t1 ?s1] =>
      destruct (IH t1 s1) as (results & st' & Hrun & Hlen & Hin & Hlog) end.
    exists (r :: results), st'. rewrite Hrun. simpl in Hin, Hlog.
    repeat split.
    + simpl. destruct (confirmed r); simpl; [|reflexivity].
      rewrite closedAfter_cons. reflexivity.
    + simpl. rewrite Hlen. reflexivity.
    + exact Hin.
    + rewrite Hlog. simpl. rewrite <- app_assoc. reflexivity.
Qed.

Lemma submissions_batchesEvents (kp : Keypair) (bs : list (list TokenAccount)) :
  forall results, List.length results = List.length bs ->
    submissions (batchesEvents kp bs results)
    = combine (map (batchTransaction kp) bs) results.
Proof.
  induction bs as [|b bs IH]; intros [|r rs] H; simpl in *; try discriminate; auto.
  rewrite submissions_app, IH by lia.
  unfold batchEvents. rewrite (proj1 (proj2 (attemptEvents_read _ _ _ _ _))).
  reflexivity.
Qed.

Lemma built_batchesEvents (kp : Keypair) (bs : list (list TokenAccount)) :
  forall results, List.length results = List.length bs ->
    built (batchesEvents kp bs results)
    = flat_map (accountInstructions kp) (concat bs).
Proof.
  induction bs as [|b bs IH]; intros [|r rs] H; simpl in *; try discriminate; auto.
  rewrite built_app, IH by lia.
  unfold batchEvents. rewrite (proj1 (attemptEvents_read _ _ _ _ _)).
  unfold batchTransaction. rewrite flat_map_app. reflexivity.
Qed.

Lemma map_fst_combine {A B} (l : list A) (l' : list B) :
  List.length l' = List.length l -> map fst (combine l l') = l.
Proof.
  revert l'. induction l as [|a l IH]; intros [|b l'] H; simpl in *;
    try discriminate; auto.
  rewrite IH by lia. reflexivity.
Qed.

Lemma map_snd_combine {A B} (l : list A) (l' : list B) :
  List.length l' = List.length l -> map snd (combine l l') = l'.
Proof.
  revert l'. induction l as [|a l IH]; intros [|b l'] H; simpl in *;
    try discriminate; auto.
  rewrite IH by lia. reflexivity.
Qed.


End RunFacts.

(* ================================================================= *)
(** ** The interactive processor *)

Section InteractiveFacts.
Context {P : Platform}.

(** One account: as one batch, over the account's own transaction. *)
Lemma processAccount_run (kp : Keypair) (a : TokenAccount) (t : Totals) (st : State) :
  let r := fst (sendAndConfirmTransaction (accountInstructions kp a) kp (net st)) in
  let net' := snd (sendAndConfirmTransaction (accountInstructions kp a) kp (net st)) in
  processAccount kp a t st
  = (Normal (if confirmed r
             then mkTotals (totalClosed t + 1)
                           (Num.add (totalRecovered t) (reserveSOL 1))
             else t),
     mkState (stdin st) net' (log st ++ accountEvents kp a r)).
Proof.
  cbv zeta. unfold processAccount, try_catch, bind. rewrite addAll_run.
  unfold send, print, emit, ret. simpl.
  destruct (sendAndConfirmTransaction _ kp (net st)) as [[msg|sig] net']; simpl;
    unfold accountEvents, attemptEvents; rewrite <- !app_assoc; reflexivity.
Qed.

(** The prompt, when neither flag is set. *)
Lemma decide_ask (st : State) :
  decide false false st =
  match stdin st with
  | [] => (Hang, st)
  | line :: rest =>
      match readCommand line with
      | CmdYes => (Normal (true, false, false),
                   mkState rest (net st) (log st ++ [Asked line]))
      | CmdAll => (Normal (true, false, true),
                   mkState rest (net st) (log st ++ [Asked line]))
      | CmdQuit => (Normal (false, true, false),
                    mkState rest (net st) (log st ++ [Asked line]))
      | CmdOther => (Normal (false, false, false),
                     mkState rest (net st) (log st ++ [Asked line]))
      end
  end.
Proof.
  unfold decide, bind, question. simpl.
  destruct (stdin st) as [|line rest]; [reflexivity|].
  unfold switchAnswer, readCommand.
  destruct ((toLowerCase line =? "y")%string || (toLowerCase line =? "yes")%string);
    [reflexivity|].
  destruct ((toLowerCase line =? "a")%string || (toLowerCase line =? "all")%string);
    [reflexivity|].
  destruct ((toLowerCase line =? "q")%string || (toLowerCase line =? "quit")%string);
    reflexivity.
Qed.

Lemma totalsAfter_step (t : Totals) (r : string + string) (results : list (string + string)) :
  totalsAfter (if confirmed r then totalsAfter t 1 else t) (confirmations results)
  = totalsAfter t (confirmations (r :: results)).
Proof.
  unfold confirmations. simpl. destruct (confirmed r); [|reflexivity].
  unfold totalsAfter. cbn [totalClosed totalRecovered List.length].
  f_equal; [lia|].
  symmetry. apply Nat.iter_succ_r.
Qed.

Lemma loopOutcome_processed (kp : Keypair) (a : TokenAccount)
    (accounts : list TokenAccount) (t : Totals) (st st1 : State)
    (run : Completion Totals * State) (mo : option (list Verdict * list string))
    (r : string + string) (pre : list Event) :
  log st1 = log st ++ pre ++ accountEvents kp a r ->
  answers pre ++ stdin st1 = stdin st ->
  built pre = [] ->
  submissions pre = [] ->
  loopOutcome kp accounts (if confirmed r then totalsAfter t 1 else t) st1 run mo ->
  loopOutcome kp (a :: accounts) t st run
    (option_map (fun x => (Processed :: fst x, snd x)) mo).
Proof.
  intros Hlog Hans Hb Hs H.
  destruct mo as [[verdicts rest]|]; simpl in *; [|exact H].
  destruct H as (trace & results & st' & Hrun & Hin & Hl & Ha & Hsub & Hlen & Hbuilt).
  destruct (attemptEvents_read kp (accountInstructions kp a) r AccountDone AccountFailed)
    as (E1 & E2 & E3).
  exists (pre ++ accountEvents kp a r ++ trace), (r :: results), st'.
  repeat split.
  - rewrite Hrun, totalsAfter_step. reflexivity.
  - exact Hin.
  - rewrite Hl, Hlog, <- !app_assoc. reflexivity.
  - unfold accountEvents. rewrite !answers_app, E3. simpl.
    rewrite <- app_assoc, Ha. exact Hans.
  - unfold accountEvents. rewrite !submissions_app, E2, Hs, Hsub. reflexivity.
  - simpl. rewrite Hlen. reflexivity.
  - unfold accountEvents. rewrite !built_app, E1, Hb, Hbuilt. reflexivity.
Qed.

Lemma loopOutcome_skipped (kp : Keypair) (a : TokenAccount)
    (accounts : list TokenAccount) (t : Totals) (st st1 : State)
    (run : Completion Totals * State) (mo : option (list Verdict * list string))
    (pre : list Event) :
  log st1 = log st ++ pre ->
  answers pre ++ stdin st1 = stdin st ->
  built pre = [] ->
  submissions pre = [] ->
  loopOutcome kp accounts t st1 run mo ->
  loopOutcome kp (a :: accounts) t st run
    (option_map (fun x => (SkippedOne :: fst x, snd x)) mo).
Proof.
  intros Hlog Hans Hb Hs H.
  destruct mo as [[verdicts rest]|]; simpl in *; [|exact H].
  destruct H as (trace & results & st' & Hrun & Hin & Hl & Ha & Hsub & Hlen & Hbuilt).
  exists (pre ++ trace), results, st'.
  repeat split.
  - exact Hrun.
  - exact Hin.
  - rewrite Hl, Hlog, <- !app_assoc. reflexivity.
  - rewrite !answers_app, <- app_assoc, Ha. exact Hans.
  - rewrite !submissions_app, Hs, Hsub. reflexivity.
  - exact Hlen.
  - rewrite !built_app, Hb, Hbuilt. reflexivity.
Qed.

(** The loop agrees with the machine from every state of its flags. *)
Lemma interactiveLoop_run (kp : Keypair) (accounts : list TokenAccount) :
  forall t skipRemaining processAll st,
    loopOutcome kp accounts t st
      (interactiveLoop kp accounts t skipRemaining processAll st)
      (machine (modeOf skipRemaining processAll) (List.length accounts) (stdin st)).
Proof.
  induction accounts as [|a accounts IH]; intros t skip all st.
  - simpl. exists [], [], st. unfold totalsAfter, confirmations, ret. simpl.
    rewrite Nat.add_0_r, app_nil_r. destruct t. repeat split; reflexivity.
  - cbn [interactiveLoop List.length]. unfold bind at 1.
    assert (turn_processed : forall pre t1 sk al s1 r mo,
      t1 = (if confirmed r then totalsAfter t 1 else t) ->
      log s1 = log st ++ pre ++ accountEvents kp a r ->
      answers pre ++ stdin s1 = stdin st ->
      built pre = [] -> submissions pre = [] ->
      mo = machine (modeOf sk al) (List.length accounts) (stdin s1) ->
      loopOutcome kp (a :: accounts) t st (interactiveLoop kp accounts t1 sk al s1)
        (option_map (fun x => (Processed :: fst x, snd x)) mo)).
    { intros pre t1 sk al s1 r mo -> Hlog Hans Hb Hs ->.
      eapply loopOutcome_processed; eauto. }
    assert (turn_skipped : forall pre sk al s1 mo,
      log s1 = log st ++ pre ->
      answers pre ++ stdin s1 = stdin st ->
      built pre = [] -> submissions pre = [] ->
      mo = machine (modeOf sk al) (List.length accounts) (stdin s1) ->
      loopOutcome kp (a :: accounts) t st (interactiveLoop kp accounts t sk al s1)
        (option_map (fun x => (SkippedOne :: fst x, snd x)) mo)).
    { intros pre sk al s1 mo Hlog Hans Hb Hs ->.
      eapply loopOutcome_skipped; eauto. }
    destruct all.
    + (* processAll *)
      cbn [modeOf machine]. unfold decide. cbn [ret]. unfold bind at 1.
      rewrite processAccount_run.
      eapply turn_processed with (pre := []); reflexivity.
    + destruct skip.
      * (* skipRemaining *)
        cbn [modeOf machine]. unfold decide. cbn [negb ret]. unfold bind at 1.
        cbn [ret].
        eapply turn_skipped with (pre := []);
          try reflexivity. symmetry; apply app_nil_r.
      * (* the prompt *)
        cbn [modeOf machine]. rewrite decide_ask.
        destruct (stdin st) as [|line rest] eqn:Hin; [reflexivity|].
        destruct (readCommand line); cbn [onCommand].
        -- unfold bind at 1. rewrite processAccount_run.
           eapply turn_processed with (pre := [Asked line]);
             first [reflexivity | simpl; rewrite <- ?app_assoc; reflexivity].
        -- unfold bind at 1. rewrite processAccount_run.
           eapply turn_processed with (pre := [Asked line]);
             first [reflexivity | simpl; rewrite <- ?app_assoc; reflexivity].
        -- unfold bind at 1. cbn [ret].
           eapply turn_skipped with (pre := [Asked line]);
             first [reflexivity | simpl; rewrite <- ?app_assoc; reflexivity].
        -- unfold bind at 1. cbn [ret].
           eapply turn_skipped with (pre := [Asked line]);
             first [reflexivity | simpl; rewrite <- ?app_assoc; reflexivity].
Qed.
(** The transitions of the machine in [ASK], spelled out. *)
Lemma machine_transitions (n : nat) (line : string) (rest : list string) :
  machine AUTO_ALL (S n) rest
    = option_map (fun r => (Processed :: fst r, snd r)) (machine AUTO_ALL n rest)
  /\ machine SKIP_ALL (S n) rest
    = option_map (fun r => (SkippedOne :: fst r, snd r)) (machine SKIP_ALL n rest)
  /\ machine ASK (S n) [] = None
  /\ machine ASK (S n) (line :: rest)
    = match readCommand line with
      | CmdYes => option_map (fun r => (Processed :: fst r, snd r)) (machine ASK n rest)
      | CmdAll =>
          option_map (fun r => (Processed :: fst r, snd r)) (machine AUTO_ALL n rest)
      | CmdQuit =>
          option_map (fun r => (SkippedOne :: fst r, snd r)) (machine SKIP_ALL n rest)
      | CmdOther => option_map (fun r => (SkippedOne :: fst r, snd r)) (machine ASK n rest)
      end.
Proof.
  repeat split. simpl. destruct (readCommand line); reflexivity.
Qed.


End InteractiveFacts.

(** The two runs of the specification, on the scripted platform with every
    submission confirmed: what is submitted, what is read, how it ends. *)
Example interactive_n_y_a :
  let run := interactiveClean Scripted.walletOne Scripted.four
               (Scripted.start ["n"; "y"; "a"] Scripted.quietNet) in
  fst run = Normal tt
  /\ map fst (submissions (log (snd run)))
     = map (accountInstructions Scripted.walletOne)
           [Scripted.holding "h2" LOW; Scripted.holding "h3" LOW;
            Scripted.holding "h4" LOW]
  /\ answers (log (snd run)) = ["n"; "y"; "a"]
  /\ In (Out (Summary 3 (totalRecovered (totalsAfter (mkTotals 0 Num.zero) 3))))
        (log (snd run)).
Proof. vm_compute. intuition. Qed.

Example interactive_y_q :
  let run := interactiveClean Scripted.walletOne Scripted.four
               (Scripted.start ["y"; "q"] Scripted.quietNet) in
  fst run = Normal tt
  /\ map fst (submissions (log (snd run)))
     = map (accountInstructions Scripted.walletOne) [Scripted.holding "h1" LOW]
  /\ answers (log (snd run)) = ["y"; "q"]
  /\ In (Out (Summary 1 (totalRecovered (totalsAfter (mkTotals 0 Num.zero) 1))))
        (log (snd run)).
Proof. vm_compute. intuition. Qed.

(** A prompt with no line left never returns. *)
Example interactive_blocked :
  fst (interactiveClean Scripted.walletOne Scripted.four
         (Scripted.start ["y"] Scripted.quietNet)) = Hang.
Proof. reflexivity. Qed.

(** Batch partial failure: thirteen accounts, the second of the three
    submissions fails.  All three batches are submitted, and the summary
    counts the five and the three accounts of the batches that confirmed. *)
Example batch_second_of_three_fails :
  let run := batchProcess Scripted.walletOne Scripted.thirteen
               (Scripted.start []
                  (Scripted.mkNet [] Scripted.noMetadata
                     [inr "sig-1"; inl "blockhash expired"; inr "sig-3"])) in
  fst run = Normal tt
  /\ map (fun s => (List.length (fst s), snd s)) (submissions (log (snd run)))
     = [(5, inr "sig-1"); (5, inl "blockhash expired"); (3, inr "sig-3")]
  /\ In (Out (BatchFailed "blockhash expired")) (log (snd run))
  /\ last (log (snd run)) (Out Aborted)
     = Out (Summary 8 (Num.add (Num.add Num.zero (reserveSOL 5)) (reserveSOL 3))).
Proof. vm_compute. intuition. Qed.

(* ================================================================= *)
(** ** [cleanDust]: the identity gate and the dry run *)

Section CleanFacts.
Context {P : Platform}.

(** The ledger query and the metadata lookup write nothing and read no
    line. *)
Lemma fetchAccounts_quiet (walletAddress : string) (st : State) :
  log (snd (fetchAccounts walletAddress st)) = log st
  /\ stdin (snd (fetchAccounts walletAddress st)) = stdin st.
Proof.
  unfold fetchAccounts.
  destruct (validPublicKey walletAddress); simpl; [|auto].
  destruct (getParsedTokenAccountsByOwner walletAddress (net st)) as [[msg|tas] n1];
    simpl; [auto|].
  destruct (fetchTokenMetadata _ n1); simpl; auto.
Qed.

Lemma printDryRun_run (accounts : list TokenAccount) :
  forall i st,
    printDryRun i accounts st
    = (Normal tt, mkState (stdin st) (net st) (log st ++ dryRunEntries i accounts)).
Proof.
  induction accounts as [|a accounts IH]; intros i st; simpl.
  - rewrite app_nil_r. destruct st; reflexivity.
  - unfold bind, print, emit. rewrite IH. simpl. rewrite <- app_assoc. reflexivity.
Qed.

Lemma built_dryRunEntries (accounts : list TokenAccount) :
  forall i, built (dryRunEntries i accounts) = []
            /\ submissions (dryRunEntries i accounts) = [].
Proof. induction accounts as [|a accounts IH]; intros i; simpl; auto. Qed.

(** What [batchProcess] builds and submits. *)
Lemma batchProcess_trace (kp : Keypair) (accounts : list TokenAccount) (st : State) :
  exists st',
    batchProcess kp accounts st = (Normal tt, st')
    /\ built (log st') = built (log st) ++ flat_map (accountInstructions kp) accounts
    /\ map fst (submissions (log st'))
       = map fst (submissions (log st))
         ++ map (batchTransaction kp) (batches accounts 0).
Proof.
  unfold batchProcess, bind. rewrite batchLoop_fold.
  destruct (foldBatches_run kp (batches accounts 0) (mkTotals 0 Num.zero) st)
    as (results & st1 & Hrun & Hlen & Hin & Hlog).
  eexists. rewrite Hrun. unfold print, emit. simpl.
  split; [reflexivity|]. simpl.
  rewrite Hlog, !built_app, !submissions_app.
  rewrite built_batchesEvents, submissions_batchesEvents by exact Hlen.
  rewrite batches_concat. simpl. rewrite !app_nil_r, map_app.
  rewrite map_fst_combine by (rewrite length_map; exact Hlen).
  auto.
Qed.

(** C1: when the key loaded from the given path is not the key of the
    wallet address, no run of [cleanDust] builds an instruction or submits
    a transaction; and a run that gets as far as loading the key (the
    accounts were fetched, something is to be processed, it is not a dry
    run) ends in [process.exit(1)] right after the mismatch message, which
    is all it adds to the trace. *)
Theorem cleanDust_identity_gate (walletAddress : string) (options : Options)
    (keypairPath : string) (kp : Keypair) (st : State) :
  keypair options = Some keypairPath ->
  loadKeypair keypairPath = Returned kp ->
  publicKey kp <> walletAddress ->
  let run := cleanDust walletAddress options st in
  built (log (snd run)) = built (log st)
  /\ submissions (log (snd run)) = submissions (log st)
  /\ (forall tokenAccounts metadataMap st1,
        fetchAccounts walletAddress st = (Normal (tokenAccounts, metadataMap), st1) ->
        toProcess options (map (toTokenAccount metadataMap) tokenAccounts) <> [] ->
        dryRun options = false ->
        fst run = Exit 1
        /\ log (snd run)
           = log st ++ [Out (KeypairMismatch (publicKey kp) walletAddress)]).
Proof.
  intros Hk Hload Hne. cbv zeta.
  apply String.eqb_neq in Hne.
  pose proof (fetchAccounts_quiet walletAddress st) as [Hq _].
  unfold cleanDust, try_catch, bind.
  destruct (fetchAccounts walletAddress st) as [[[tas md]|msg|code|] st1] eqn:F;
    simpl in Hq.
  - destruct (toProcess options (map (toTokenAccount md) tas)) as [|a sel] eqn:Esel.
    + simpl. rewrite built_app, submissions_app, Hq, !app_nil_r.
      split; [reflexivity|]. split; [reflexivity|].
      intros ? ? ? E Hsel _. inversion E; subst. rewrite Esel in Hsel. contradiction.
    + cbn [List.length Nat.eqb].
      destruct (dryRun options) eqn:Edry.
      * unfold print, emit. rewrite printDryRun_run. simpl.
        rewrite <- app_assoc, built_app, submissions_app, Hq. simpl.
        destruct (built_dryRunEntries sel 1) as [-> ->]. rewrite !app_nil_r.
        split; [reflexivity|]. split; [reflexivity|]. intros; discriminate.
      * rewrite Hk, Hload. simpl. rewrite Hne. simpl.
        rewrite built_app, submissions_app, Hq, !app_nil_r.
        split; [reflexivity|]. split; [reflexivity|]. auto.
  - simpl. rewrite built_app, submissions_app, Hq, !app_nil_r.
    split; [reflexivity|]. split; [reflexivity|]. intros; discriminate.
  - simpl. rewrite Hq. split; [reflexivity|]. split; [reflexivity|]. intros; discriminate.
  - simpl. rewrite Hq. split; [reflexivity|]. split; [reflexivity|]. intros; discriminate.
Qed.

Lemma nonempty_length {A} (l : list A) : l <> [] -> (List.length l =? 0) = false.
Proof. destruct l; [contradiction | reflexivity]. Qed.

(** A dry run with something to list: what it returns. *)
Lemma cleanDust_lists (walletAddress : string) (options : Options) (st st1 : State)
    (tokenAccounts : list ParsedTokenAccount) (metadataMap : MetadataMap) :
  fetchAccounts walletAddress st = (Normal (tokenAccounts, metadataMap), st1) ->
  toProcess options (map (toTokenAccount metadataMap) tokenAccounts) <> [] ->
  dryRun options = true ->
  cleanDust walletAddress options st
  = (Normal tt,
     mkState (stdin st) (net st1)
       (log st ++ Out DryRunNotice
          :: dryRunEntries 0
               (toProcess options (map (toTokenAccount metadataMap) tokenAccounts)))).
Proof.
  intros F Hsel Hdry.
  pose proof (fetchAccounts_quiet walletAddress st) as [Hq Hin].
  unfold cleanDust, try_catch, bind. rewrite F in *. cbn [fst snd] in *.
  rewrite (nonempty_length _ Hsel), Hdry.
  unfold print, emit. rewrite printDryRun_run. cbn.
  rewrite <- app_assoc, Hq, Hin. reflexivity.
Qed.

(** A dry run builds nothing, submits nothing and reads no line. *)
Lemma cleanDust_dry_quiet (walletAddress : string) (options : Options) (st : State) :
  dryRun options = true ->
  built (log (snd (cleanDust walletAddress options st))) = built (log st)
  /\ submissions (log (snd (cleanDust walletAddress options st))) = submissions (log st)
  /\ stdin (snd (cleanDust walletAddress options st)) = stdin st.
Proof.
  intros Hdry.
  pose proof (fetchAccounts_quiet walletAddress st) as [Hq Hin].
  destruct (fetchAccounts walletAddress st) as [[[tas md]|msg|code|] st1] eqn:F;
    cbn [fst snd] in Hq, Hin.
  - destruct (toProcess options (map (toTokenAccount md) tas)) as [|a sel] eqn:Esel.
    + unfold cleanDust, try_catch, bind. rewrite F, Esel. cbn.
      rewrite built_app, submissions_app, Hq, Hin, !app_nil_r. auto.
    + rewrite (cleanDust_lists walletAddress options st st1 tas md F)
        by (rewrite Esel; discriminate) || exact Hdry.
      cbn [snd log stdin]. rewrite built_app, submissions_app. cbn [built submissions].
      destruct (built_dryRunEntries (toProcess options (map (toTokenAccount md) tas)) 0)
        as [-> ->].
      rewrite !app_nil_r. auto.
  - unfold cleanDust, try_catch, bind. rewrite F. cbn.
    rewrite built_app, submissions_app, Hq, Hin, !app_nil_r. auto.
  - unfold cleanDust, try_catch, bind. rewrite F. cbn. rewrite Hq, Hin. auto.
  - unfold cleanDust, try_catch, bind. rewrite F. cbn. rewrite Hq, Hin. auto.
Qed.

(** A dry run reads [--burn] and no other option. *)
Lemma cleanDust_dry_options (walletAddress : string) (options options' : Options)
    (st : State) :
  burn options' = burn options ->
  cleanDust walletAddress (withDryRun true options') st
  = cleanDust walletAddress (withDryRun true options) st.
Proof.
  intros Hb.
  assert (Hsel : forall accounts,
             toProcess (withDryRun true options') accounts
             = toProcess (withDryRun true options) accounts).
  { intros accounts. unfold toProcess. cbn [withDryRun burn]. rewrite Hb. reflexivity. }
  unfold cleanDust, try_catch, bind.
  destruct (fetchAccounts walletAddress st) as [[[tas md]|msg|code|] st1];
    try reflexivity.
  rewrite Hsel.
  destruct (toProcess (withDryRun true options) (map (toTokenAccount md) tas));
    reflexivity.
Qed.

(** C8: the selection does not look at [--dry-run]; a dry run builds no
    instruction, submits no transaction and reads no line, whatever the
    other options but [--burn] are; when the accounts are fetched and the
    selection is not empty it ends normally after listing the selected
    accounts, in order.  The live run of the same options from the same
    state goes on to the key: without a key, with a key that cannot be
    loaded or with the key of another wallet it exits with status 1, and on
    an answer other than [y] it aborts, in each case with no submission
    either; and when it goes through (valid key of the wallet, [--yes], not
    interactive) it builds the instructions of the listed accounts in the
    listed order and submits them batch by batch. *)
Theorem cleanDust_dry_run (walletAddress : string) (options : Options) (st : State) :
  let dry := withDryRun true options in
  let live := withDryRun false options in
  let run := cleanDust walletAddress dry st in
  let liveRun := cleanDust walletAddress live st in
  (forall accounts, toProcess dry accounts = toProcess live accounts)
  /\ built (log (snd run)) = built (log st)
  /\ submissions (log (snd run)) = submissions (log st)
  /\ stdin (snd run) = stdin st
  /\ (forall options',
        burn options' = burn options ->
        cleanDust walletAddress (withDryRun true options') st = run)
  /\ (forall tokenAccounts metadataMap st1,
        fetchAccounts walletAddress st = (Normal (tokenAccounts, metadataMap), st1) ->
        let selected := toProcess live (map (toTokenAccount metadataMap) tokenAccounts) in
        selected <> [] ->
        fst run = Normal tt
        /\ log (snd run) = log st ++ Out DryRunNotice :: dryRunEntries 0 selected
        /\ (keypair options = None ->
            fst liveRun = Exit 1
            /\ log (snd liveRun) = log st ++ [Out KeypairRequired])
        /\ (forall keypairPath msg,
              keypair options = Some keypairPath ->
              keypairPath <> ""%string ->
              loadKeypair keypairPath = Threw msg ->
              fst liveRun = Exit 1
              /\ log (snd liveRun) = log st ++ [Out (ErrorMessage msg)])
        /\ (forall keypairPath kp,
              keypair options = Some keypairPath ->
              keypairPath <> ""%string ->
              loadKeypair keypairPath = Returned kp ->
              publicKey kp <> walletAddress ->
              fst liveRun = Exit 1
              /\ log (snd liveRun)
                 = log st ++ [Out (KeypairMismatch (publicKey kp) walletAddress)])
        /\ (forall keypairPath kp line rest,
              keypair options = Some keypairPath ->
              keypairPath <> ""%string ->
              loadKeypair keypairPath = Returned kp ->
              publicKey kp = walletAddress ->
              interactive options = false ->
              yes options = false ->
              stdin st = line :: rest ->
              toLowerCase line <> "y"%string ->
              fst liveRun = Normal tt
              /\ stdin (snd liveRun) = rest
              /\ log (snd liveRun) = log st ++ [Asked line; Out Aborted])
        /\ (forall keypairPath kp,
              keypair options = Some keypairPath ->
              keypairPath <> ""%string ->
              loadKeypair keypairPath = Returned kp ->
              publicKey kp = walletAddress ->
              interactive options = false ->
              yes options = true ->
              fst liveRun = Normal tt
              /\ built (log (snd liveRun))
                 = built (log st) ++ flat_map (accountInstructions kp) selected
              /\ map fst (submissions (log (snd liveRun)))
                 = map fst (submissions (log st))
                   ++ map (batchTransaction kp) (batches selected 0))).
Proof.
  cbv zeta.
  pose proof (fetchAccounts_quiet walletAddress st) as [Hq Hin].
  destruct (cleanDust_dry_quiet walletAddress (withDryRun true options) st eq_refl)
    as (Hb & Hs & Hstdin).
  split; [reflexivity|]. split; [exact Hb|]. split; [exact Hs|].
  split; [exact Hstdin|].
  split; [intros options' E; apply cleanDust_dry_options; exact E|].
  intros tas md st1 F Hsel.
  rewrite F in Hq, Hin. cbn [fst snd] in Hq, Hin.
  rewrite (cleanDust_lists walletAddress (withDryRun true options) st st1 tas md F Hsel
             eq_refl).
  split; [reflexivity|]. split; [reflexivity|].
  assert (Hlive : cleanDust walletAddress (withDryRun false options) st
                  = try_catch
                      (match keypair options with
                       | None => print KeypairRequired ;; exit 1
                       | Some keypairPath =>
                           keypair <- ofThrown (loadKeypair keypairPath) ;;
                           if negb (publicKey keypair =? walletAddress)%string
                           then print (KeypairMismatch (publicKey keypair) walletAddress) ;;
                                exit 1
                           else if interactive options
                           then interactiveClean keypair
                                  (toProcess (withDryRun false options)
                                     (map (toTokenAccount md) tas))
                           else
                             proceed <- (if negb (yes options)
                                         then answer <- question ;;
                                              ret (toLowerCase answer =? "y")%string
                                         else ret true) ;;
                             if proceed : bool
                             then batchProcess keypair
                                    (toProcess (withDryRun false options)
                                       (map (toTokenAccount md) tas))
                             else print Aborted
                       end)
                      (fun msg => print (ErrorMessage msg) ;; exit 1) st1).
  { unfold cleanDust, try_catch, bind. rewrite F.
    rewrite (nonempty_length _ Hsel). reflexivity. }
  rewrite Hlive. clear Hlive.
  split; [|split; [|split; [|split]]].
  - intros Hk. rewrite Hk. cbn. rewrite Hq. auto.
  - intros keypairPath msg Hk _ Hload. rewrite Hk. unfold try_catch, bind.
    rewrite Hload. cbn. rewrite Hq. auto.
  - intros keypairPath kp Hk _ Hload Hne. rewrite Hk. unfold try_catch, bind.
    rewrite Hload. apply String.eqb_neq in Hne. cbn. rewrite Hne. cbn.
    rewrite Hq. auto.
  - intros keypairPath kp line rest Hk _ Hload Hpk Hint Hyes Hline Hans.
    rewrite Hk. unfold try_catch, bind. rewrite Hload. cbn [ofThrown ret].
    apply String.eqb_eq in Hpk. rewrite Hpk, Hint, Hyes. cbn [negb].
    unfold question. rewrite Hin, Hline. cbn [ret].
    apply String.eqb_neq in Hans. rewrite Hans. cbn.
    rewrite Hq, <- app_assoc. auto.
  - intros keypairPath kp Hk _ Hload Hpk Hint Hyes.
    rewrite Hk. unfold try_catch, bind. rewrite Hload. cbn [ofThrown ret].
    apply String.eqb_eq in Hpk. rewrite Hpk, Hint, Hyes. cbn [negb ret].
    destruct (batchProcess_trace kp
                (toProcess (withDryRun false options) (map (toTokenAccount md) tas)) st1)
      as (st2 & Hrun & Hbuilt & Hsub).
    rewrite Hrun. cbn [fst snd]. rewrite Hbuilt, Hsub, Hq. auto.
Qed.

End CleanFacts.

(** A wallet with two empty accounts and a key file of another wallet. *)
Lemma cleanDust_identity_gate_witness :
  fst (cleanDust "WalletTwo" Scripted.cleanWithKey
         (Scripted.start [] Scripted.twoEmpty)) = Exit 1
  /\ log (snd (cleanDust "WalletTwo" Scripted.cleanWithKey
                 (Scripted.start [] Scripted.twoEmpty)))
     = [Out (KeypairMismatch "WalletOne" "WalletTwo")].
Proof.
  refine (proj2 (proj2 (@cleanDust_identity_gate Scripted.platform
            "WalletTwo" Scripted.cleanWithKey "~/id.json" Scripted.walletOne
            (Scripted.start [] Scripted.twoEmpty) eq_refl eq_refl _))
            _ _ _ eq_refl _ eq_refl).
  - discriminate.
  - discriminate.
Defined.

(** The same wallet without [--keypair]: the dry run lists the two
    accounts and ends normally, the live run prints that a key is required
    and exits with status 1, and neither submits a transaction.  With the
    wallet's key and without [--yes], on the answer [n]: the live run
    reads the line and aborts, the dry run leaves it unread, and again
    neither submits a transaction. *)
Lemma cleanDust_dry_run_differs :
  fst (cleanDust "WalletOne" (withDryRun true Scenario.cleanNoKey)
         (Scripted.start [] Scripted.twoEmpty)) = Normal tt
  /\ fst (cleanDust "WalletOne" (withDryRun false Scenario.cleanNoKey)
            (Scripted.start [] Scripted.twoEmpty)) = Exit 1
  /\ log (snd (cleanDust "WalletOne" (withDryRun false Scenario.cleanNoKey)
                 (Scripted.start [] Scripted.twoEmpty)))
     = [Out KeypairRequired]
  /\ submissions (log (snd (cleanDust "WalletOne" (withDryRun true Scenario.cleanNoKey)
                              (Scripted.start [] Scripted.twoEmpty)))) = []
  /\ submissions (log (snd (cleanDust "WalletOne" (withDryRun false Scenario.cleanNoKey)
                              (Scripted.start [] Scripted.twoEmpty)))) = []
  /\ stdin (snd (cleanDust "WalletOne" (withDryRun true Scenario.cleanAsk)
                   (Scripted.start ["n"] Scripted.twoEmpty))) = ["n"]
  /\ stdin (snd (cleanDust "WalletOne" (withDryRun false Scenario.cleanAsk)
                   (Scripted.start ["n"] Scripted.twoEmpty))) = []
  /\ log (snd (cleanDust "WalletOne" (withDryRun false Scenario.cleanAsk)
                 (Scripted.start ["n"] Scripted.twoEmpty)))
     = [Asked "n"; Out Aborted]
  /\ submissions (log (snd (cleanDust "WalletOne" (withDryRun true Scenario.cleanAsk)
                              (Scripted.start ["n"] Scripted.twoEmpty)))) = []
  /\ submissions (log (snd (cleanDust "WalletOne" (withDryRun false Scenario.cleanAsk)
                              (Scripted.start ["n"] Scripted.twoEmpty)))) = [].
Proof. vm_compute. repeat split. Qed.

(** The same wallet and options with the wallet's own key: the dry run
    lists the two accounts and submits nothing; the live run closes them
    in one transaction. *)
Example dry_run_and_live_run :
  let st := Scripted.start [] Scripted.twoEmpty in
  let dry := cleanDust "WalletOne" (withDryRun true Scripted.cleanWithKey) st in
  let live := cleanDust "WalletOne" Scripted.cleanWithKey st in
  log (snd dry)
  = Out DryRunNotice
    :: dryRunEntries 0 (map (toTokenAccount Scripted.noMetadata) (Scripted.chain Scripted.twoEmpty))
  /\ submissions (log (snd dry)) = []
  /\ map fst (submissions (log (snd live)))
     = [[CloseAccountInstruction "e1" "WalletOne" "WalletOne";
         CloseAccountInstruction "e2" "WalletOne" "WalletOne"]].
Proof. vm_compute. intuition. Qed.

(** [cleanDust] keeps the order of the ledger where [scanDust] sorts: an
    empty account ahead of an empty spam-named one stays ahead. *)
Example toProcess_keeps_ledger_order :
  let ledger := [Scripted.emptyAccount "e1"; Scripted.emptyAccount "spam"] in
  map riskLevel
      (toProcess Scripted.cleanWithKey (map (toTokenAccount Scripted.spamService) ledger))
  = [LOW; HIGH]
  /\ map riskLevel (scanDust_accounts Scripted.spamService ledger) = [HIGH; LOW].
Proof. vm_compute. intuition. Qed.

(* ================================================================= *)
(** * Further properties of the command *)

(* ================================================================= *)
(** ** Trimming *)

Lemma trimStart_noLeadingSpace (s : string) : noLeadingSpace (trimStart s).
Proof.
  induction s as [|c s IH]; simpl; [exact I|].
  destruct (isSpace c) eqn:E; [exact IH | exact E].
Qed.

Lemma trimStart_fixed (s : string) : noLeadingSpace s -> trimStart s = s.
Proof. destruct s as [|c s]; simpl; [reflexivity | intros ->; reflexivity]. Qed.

Lemma trimEnd_noLeadingSpace (s : string) :
  noLeadingSpace s -> noLeadingSpace (trimEnd s).
Proof.
  destruct s as [|c s]; simpl; [exact id|]. intros H.
  destruct (trimEnd s); [rewrite H|]; exact H.
Qed.

Lemma trimEnd_idempotent (s : string) : trimEnd (trimEnd s) = trimEnd s.
Proof.
  induction s as [|c s IH]; simpl; [reflexivity|].
  destruct (trimEnd s) as [|d r] eqn:E.
  - destruct (isSpace c) eqn:Hc; simpl; [reflexivity | rewrite Hc; reflexivity].
  - cbn [trimEnd] in *. rewrite IH. reflexivity.
Qed.

(** [trim] is idempotent: a trimmed string has nothing left to trim. *)
Lemma trim_idempotent (s : string) : trim (trim s) = trim s.
Proof.
  unfold trim.
  rewrite (trimStart_fixed (trimEnd (trimStart s))).
  - apply trimEnd_idempotent.
  - apply trimEnd_noLeadingSpace, trimStart_noLeadingSpace.
Qed.

(* ================================================================= *)
(** ** The metadata lookup *)

Module MetadataFacts.
Import Metadata.

Lemma find_last {A} (p : A -> bool) (l : list A) (x : A) :
  find p (l ++ [x]) =
  match find p l with
  | Some y => Some y
  | None => if p x then Some x else None
  end.
Proof.
  induction l as [|y l IH]; simpl; [reflexivity|].
  destruct (p y); [reflexivity | exact IH].
Qed.

(** The loop leaves, for each key, the entry of the last item that names
    it, and the map as it was for a key no item names. *)
Lemma setAll_lookup (data : list Item) :
  forall (m : MetadataMap) (k : string),
    setAll data m k =
    match find (fun item => (k =? account item)%string) (rev data) with
    | Some item => Some (entry item)
    | None => m k
    end.
Proof.
  unfold setAll.
  induction data as [|x data IH]; intros m k; simpl.
  - reflexivity.
  - rewrite IH, find_last.
    destruct (find _ (rev data)); [reflexivity|].
    unfold Map_set. destruct (k =? account x)%string; reflexivity.
Qed.

Lemma hasNul_removeNul (s : string) : hasNul (removeNul s) = false.
Proof.
  induction s as [|c s IH]; simpl; [reflexivity|].
  destruct (Ascii.eqb c NUL) eqn:E; simpl; [exact IH | rewrite E; exact IH].
Qed.

Lemma hasNul_trimStart (s : string) : hasNul s = false -> hasNul (trimStart s) = false.
Proof.
  induction s as [|c s IH]; simpl; [reflexivity|]. intros H.
  apply orb_false_iff in H. destruct H as [Hc Hs].
  destruct (isSpace c); [apply IH, Hs | simpl; rewrite Hc; exact Hs].
Qed.

Lemma hasNul_trimEnd (s : string) : hasNul s = false -> hasNul (trimEnd s) = false.
Proof.
  induction s as [|c s IH]; simpl; [reflexivity|]. intros H.
  apply orb_false_iff in H. destruct H as [Hc Hs]. specialize (IH Hs).
  destruct (trimEnd s) as [|d r].
  - destruct (isSpace c); simpl; [reflexivity | rewrite Hc; reflexivity].
  - simpl. rewrite Hc. exact IH.
Qed.

Lemma hasNul_trim (s : string) : hasNul s = false -> hasNul (trim s) = false.
Proof. intros H. apply hasNul_trimEnd, hasNul_trimStart, H. Qed.

(** X1: [fetchTokenMetadata] sends at most one request, whose body is the
    first hundred mints at most, in their order; it sends none for an
    empty list; and it returns the empty map for an empty list, for a
    request that fails and for an answer that is not ok. *)
Theorem fetchTokenMetadata_request (post : list string -> Response) (mints : list string) :
  let requests := snd (fetchTokenMetadata post mints) in
  let result := fst (fetchTokenMetadata post mints) in
  (requests = [] \/ requests = [firstn 100 mints])
  /\ (requests = [] <-> mints = [])
  /\ Forall (fun body => List.length body <= 100) requests
  /\ (mints = [] \/ post (firstn 100 mints) = Rejected
      \/ post (firstn 100 mints) = NotOk ->
      forall k, result k = None).
Proof.
  cbv zeta. unfold fetchTokenMetadata.
  destruct mints as [|m mints]; cbn [List.length Nat.eqb fst snd].
  - repeat split; auto. 
  - split; [right; reflexivity|]. split; [split; discriminate|].
    split.
    + constructor; [|constructor]. rewrite length_firstn. apply Nat.le_min_l.
    + intros [H|[H|H]] k; [discriminate | rewrite H; reflexivity | rewrite H; reflexivity].
Qed.

(** X2: the map has an entry for a key exactly when the answer holds an
    item for that account, and the entry is that of the last such item. *)
Theorem fetchTokenMetadata_entries (post : list string -> Response)
    (mints : list string) (data : list Item) (k : string) :
  mints <> [] ->
  post (firstn 100 mints) = Ok data ->
  fst (fetchTokenMetadata post mints) k
  = option_map entry (find (fun item => (k =? account item)%string) (rev data))
  /\ ((exists md, fst (fetchTokenMetadata post mints) k = Some md)
      <-> exists item, In item data /\ account item = k).
Proof.
  intros Hne Hpost. unfold fetchTokenMetadata.
  destruct mints as [|m mints]; [contradiction|]. cbn [List.length Nat.eqb fst].
  rewrite Hpost, setAll_lookup.
  destruct (find _ (rev data)) as [item|] eqn:F; cbn [option_map].
  - split; [reflexivity|]. split; [intros _|eauto].
    apply find_some in F. destruct F as [Hin Hk].
    exists item. split; [apply in_rev, Hin | symmetry; apply String.eqb_eq, Hk].
  - split; [reflexivity|]. split; [intros [md H]; discriminate|].
    intros [item [Hin Hk]]. apply in_rev in Hin.
    pose proof (find_none _ _ F item Hin) as C. cbn beta in C.
    subst k. rewrite String.eqb_refl in C. discriminate.
Qed.

(** X3: a mint beyond the hundredth gets no entry, when the service
    answers for the accounts it was asked about. *)
Theorem fetchTokenMetadata_beyond_100 (post : list string -> Response)
    (mints : list string) (k : string) :
  (forall body data item,
      post body = Ok data -> In item data -> In (account item) body) ->
  ~ In k (firstn 100 mints) ->
  fst (fetchTokenMetadata post mints) k = None.
Proof.
  intros Hasked Hk. unfold fetchTokenMetadata.
  destruct mints as [|m mints]; [reflexivity|]. cbn [List.length Nat.eqb fst].
  destruct (post (firstn 100 (m :: mints))) as [| |data] eqn:Hpost;
    [reflexivity | reflexivity |].
  rewrite setAll_lookup.
  destruct (find _ (rev data)) as [item|] eqn:F; [|reflexivity].
  exfalso. apply find_some in F. destruct F as [Hin Heq].
  apply String.eqb_eq in Heq. subst k. apply Hk.
  apply (Hasked _ data item Hpost). apply in_rev, Hin.
Qed.

(** X4: every name and symbol in the map is free of NUL characters and
    trimmed. *)
Theorem fetchTokenMetadata_clean (post : list string -> Response)
    (mints : list string) (k : string) (md : TokenMetadata) :
  fst (fetchTokenMetadata post mints) k = Some md ->
  hasNul (name md) = false /\ trim (name md) = name md
  /\ hasNul (symbol md) = false /\ trim (symbol md) = symbol md.
Proof.
  unfold fetchTokenMetadata.
  destruct mints as [|m mints]; cbn [List.length Nat.eqb fst]; [discriminate|].
  destruct (post _) as [| |data]; try discriminate.
  rewrite setAll_lookup.
  destruct (find _ (rev data)) as [item|]; [|discriminate].
  intros H. inversion H; subst md. unfold entry. cbn [name symbol].
  repeat split;
    first [apply hasNul_trim, hasNul_removeNul | apply trim_idempotent].
Qed.

End MetadataFacts.

(** A wallet of 101 mints: the last one is not asked about. *)
Lemma fetchTokenMetadata_beyond_100_witness :
  fst (Metadata.fetchTokenMetadata Metadata.echo (repeat "m" 100 ++ ["last"])) "last"
  = None.
Proof.
  apply MetadataFacts.fetchTokenMetadata_beyond_100.
  - intros body data item H Hin. unfold Metadata.echo in H. inversion H; subst data.
    apply in_map_iff in Hin. destruct Hin as [m [<- Hm]]. exact Hm.
  - change (firstn 100 (repeat "m" 100 ++ ["last"])) with (repeat "m" 100).
    intros H. apply repeat_spec in H. discriminate.
Defined.

(** Two items for one account: the later one is kept. *)
Lemma fetchTokenMetadata_entries_witness :
  fst (Metadata.fetchTokenMetadata
         (fun _ => Metadata.Ok
            [Metadata.mkItem "m" (Some "first") None None None None;
             Metadata.mkItem "m" None None (Some "second") None None])
         ["m"]) "m"
  = Some (mkTokenMetadata "second" "???" None).
Proof.
  exact (proj1 (MetadataFacts.fetchTokenMetadata_entries
                  (fun _ => Metadata.Ok
                     [Metadata.mkItem "m" (Some "first") None None None None;
                      Metadata.mkItem "m" None None (Some "second") None None])
                  ["m"] _ "m" ltac:(discriminate) eq_refl)).
Defined.

(** A name padded with blanks and NUL characters, as on-chain names are. *)
Lemma fetchTokenMetadata_clean_witness :
  Metadata.hasNul "USD Coin" = false /\ trim "USD Coin" = "USD Coin"
  /\ Metadata.hasNul "USDC" = false /\ trim "USDC" = "USDC".
Proof.
  exact (MetadataFacts.fetchTokenMetadata_clean
           (fun _ => Metadata.Ok
              [Metadata.mkItem "m"
                 (Some (String Metadata.NUL " USD Coin  " ++ String Metadata.NUL ""))%string
                 (Some "USDC ") None None None])
           ["m"] "m" (mkTokenMetadata "USD Coin" "USDC" None) eq_refl).
Defined.

(* ================================================================= *)
(** ** More on the classifier *)

(** An empty balance shows as zero or as no number, never as a positive
    one, whatever [Math.pow] returns. *)
Lemma zero_balance_not_positive (y : Num.number) :
  Num.ltb Num.zero (Num.div (Num.ofZ 0) y) = false.
Proof. destruct y as [s|s| |s m e]; reflexivity. Qed.

(** X5: an account is classified [LOW] exactly when it is empty and its
    name and symbol match no spam indicator; so an account classified
    [MEDIUM] or [UNKNOWN] is never empty. *)
Theorem classifyTokenRisk_LOW_iff_empty (mint : string) (balance : Z) (decimals : N)
    (metadata : option TokenMetadata) :
  (level (classifyTokenRisk mint balance decimals metadata) = LOW
   <-> balance = 0%Z /\ spamMatch metadata = false)
  /\ (level (classifyTokenRisk mint balance decimals metadata) = MEDIUM
      \/ level (classifyTokenRisk mint balance decimals metadata) = UNKNOWN ->
      balance <> 0%Z).
Proof.
  unfold classifyTokenRisk. rewrite spamLoop_spamMatch.
  destruct (spamMatch metadata).
  - cbn [level]. split; [split; [discriminate | intros [_ H]; discriminate]|].
    intros [H|H]; discriminate.
  - destruct (balance =? 0)%Z eqn:E.
    + apply Z.eqb_eq in E. subst balance.
      unfold displayBalance. rewrite zero_balance_not_positive. cbn [andb level].
      split; [split; auto|]. intros [H|H]; discriminate.
    + apply Z.eqb_neq in E.
      split; [|intros _; exact E].
      destruct (Num.ltb Num.zero _ && Num.ltb _ Num.lit_0_0001); cbn [level];
        [split; [discriminate | intros [H _]; contradiction]|].
      destruct (Num.ltb _ Num.one); cbn [level];
        (split; [discriminate | intros [H _]; contradiction]).
Qed.

Lemma toLowerCase_app (a b : string) :
  toLowerCase (a ++ b) = (toLowerCase a ++ toLowerCase b)%string.
Proof. induction a as [|c a IH]; simpl; [|rewrite IH]; reflexivity. Qed.

Lemma startsWith_app (p rest : string) : startsWith (p ++ rest) p = true.
Proof.
  induction p as [|c p IH]; simpl; [destruct rest; reflexivity|].
  rewrite Ascii.eqb_refl. exact IH.
Qed.

Lemma includes_startsWith (s p : string) :
  startsWith s p = true -> includes s p = true.
Proof. intros H. destruct s; cbn [includes]; rewrite H; reflexivity. Qed.

(** [includes] finds a word wherever it stands. *)
Lemma includes_app (pre p post : string) : includes (pre ++ p ++ post) p = true.
Proof.
  induction pre as [|c pre IH].
  - change ("" ++ p ++ post)%string with (p ++ post)%string.
    apply includes_startsWith, startsWith_app.
  - cbn [append includes]. rewrite IH. apply orb_true_r.
Qed.

(** X6: a name or a symbol that contains a spam indicator, at any place
    and in any mix of upper and lower case, is classified [HIGH] whatever
    the balance. *)
Theorem classifyTokenRisk_spam_word_anywhere (mint : string) (balance : Z)
    (decimals : N) (md : TokenMetadata) (pre word post : string) :
  In (toLowerCase word) SPAM_INDICATORS ->
  name md = (pre ++ word ++ post)%string \/ symbol md = (pre ++ word ++ post)%string ->
  level (classifyTokenRisk mint balance decimals (Some md)) = HIGH.
Proof.
  intros Hw Hin.
  assert (S : spamMatch (Some md) = true).
  { cbn [spamMatch]. apply existsb_exists. exists (toLowerCase word).
    split; [exact Hw|].
    destruct Hin as [-> | ->]; rewrite !toLowerCase_app, includes_app;
      [reflexivity | apply orb_true_r]. }
  unfold classifyTokenRisk. rewrite spamLoop_existsb.
  change (existsb _ SPAM_INDICATORS) with (spamMatch (Some md)).
  rewrite S. reflexivity.
Qed.

Lemma classifyTokenRisk_spam_word_anywhere_witness :
  level (classifyTokenRisk "mint" 123456789 6
           (Some (mkTokenMetadata "Visit x.io to CLAIM your tokens" "USDC" None)))
  = HIGH.
Proof.
  apply (classifyTokenRisk_spam_word_anywhere _ _ _ _ "Visit x.io to " "CLAIM"
           " your tokens").
  - cbn. auto 10.
  - left. reflexivity.
Defined.

(** An empty account is [HIGH] when spam-named and [LOW] otherwise. *)
Lemma classifyTokenRisk_empty (mint : string) (decimals : N)
    (metadata : option TokenMetadata) :
  level (classifyTokenRisk mint 0 decimals metadata)
  = if spamMatch metadata then HIGH else LOW.
Proof.
  unfold classifyTokenRisk. rewrite spamLoop_spamMatch.
  destruct (spamMatch metadata); [reflexivity|].
  unfold displayBalance. rewrite zero_balance_not_positive. reflexivity.
Qed.

(** Below [0.0001] is below [1]. *)
Lemma below_0_0001_below_one (q : Num.number) :
  Num.ltb q Num.lit_0_0001 = true -> Num.ltb q Num.one = true.
Proof.
  destruct q as [s|[|]| |[|] m e]; try reflexivity; try discriminate.
  unfold Num.ltb, SFltb, Num.lit_0_0001. cbn [SFcompare].
  change Num.one with (S754_finite false 4503599627370496 (-52)). cbn [SFcompare].
  destruct (e ?= -66)%Z eqn:E; try discriminate; intros _.
  - apply Z.compare_eq in E. subst e. reflexivity.
  - assert (L : (e ?= -52)%Z = Lt).
    { change (e < -66)%Z in E. change (e < -52)%Z. lia. }
    rewrite L. reflexivity.
Qed.

(* ================================================================= *)
(** ** What [scanDust] shows *)

Lemma length_filter_two {A} (p q : A -> bool) (l : list A) :
  List.length (filter p l ++ filter q l)
  = List.length (filter (fun a => p a || q a) l)
    + List.length (filter (fun a => p a && q a) l).
Proof.
  rewrite length_app.
  induction l as [|a l IH]; simpl; [reflexivity|].
  destruct (p a), (q a); simpl; lia.
Qed.

(** An account of the ledger is both dust and closeable when it is empty
    and spam-named, and only then. *)
Lemma dust_and_closeable (metadataMap : MetadataMap) (p : ParsedTokenAccount) :
  let a := toTokenAccount metadataMap p in
  isDust a && isCloseable a = (balance a =? 0)%Z && spamMatch (metadata a).
Proof.
  cbv zeta. unfold isDust, toTokenAccount.
  cbn [riskLevel isCloseable balance metadata].
  destruct (parsed_amount p =? 0)%Z eqn:E.
  - apply Z.eqb_eq in E. rewrite E, classifyTokenRisk_empty.
    destruct (spamMatch _); reflexivity.
  - rewrite andb_false_r. reflexivity.
Qed.

Lemma In_scanDust_accounts (metadataMap : MetadataMap)
    (tokenAccounts : list ParsedTokenAccount) (a : TokenAccount) :
  In a (scanDust_accounts metadataMap tokenAccounts) ->
  exists p, a = toTokenAccount metadataMap p.
Proof.
  intros H. unfold scanDust_accounts in H.
  apply (Permutation_in _ (Permutation_sym (Array_sort_perm _ _))) in H.
  apply in_map_iff in H. destruct H as [p [<- _]]. eauto.
Qed.

(** X7: without [--show-all], [scanDust] lists the dust accounts and then
    the closeable ones, so an account that is both is listed twice; those
    are the empty accounts with a spam-matching name, and no other.  With
    [--show-all] it lists the sorted accounts as they are.  Nothing is
    closeable and nothing is dust, which is when the wallet is reported
    clean, exactly when every account is classified [UNKNOWN]. *)
Theorem scanDust_listing (metadataMap : MetadataMap)
    (tokenAccounts : list ParsedTokenAccount) :
  let accounts := scanDust_accounts metadataMap tokenAccounts in
  List.length (tokensToShow false accounts)
  = List.length (filter (fun a => isDust a || isCloseable a) accounts)
    + List.length (filter (fun a => isDust a && isCloseable a) accounts)
  /\ filter (fun a => isDust a && isCloseable a) accounts
     = filter (fun a => (balance a =? 0)%Z && spamMatch (metadata a)) accounts
  /\ tokensToShow true accounts = accounts
  /\ (filter isCloseable accounts = [] /\ filter isDust accounts = []
      <-> Forall (fun a => riskLevel a = UNKNOWN) accounts).
Proof.
  cbv zeta. split; [|split; [|split]].
  - unfold tokensToShow. apply length_filter_two.
  - apply filter_ext_in. intros a Ha.
    apply In_scanDust_accounts in Ha. destruct Ha as [p ->].
    apply dust_and_closeable.
  - reflexivity.
  - split.
    + intros [Hc Hd]. apply Forall_forall. intros a Ha.
      assert (C : isCloseable a = false).
      { destruct (isCloseable a) eqn:E; [|reflexivity].
        assert (X : In a (filter isCloseable (scanDust_accounts metadataMap tokenAccounts)))
          by (apply filter_In; auto).
        rewrite Hc in X. contradiction. }
      assert (D : isDust a = false).
      { destruct (isDust a) eqn:E; [|reflexivity].
        assert (X : In a (filter isDust (scanDust_accounts metadataMap tokenAccounts)))
          by (apply filter_In; auto).
        rewrite Hd in X. contradiction. }
      apply In_scanDust_accounts in Ha. destruct Ha as [p ->].
      unfold isDust in D. cbn [toTokenAccount isCloseable riskLevel] in *.
      apply Z.eqb_neq in C.
      destruct (level _) eqn:L; try reflexivity; try discriminate.
      exfalso. revert L. unfold classifyTokenRisk. rewrite spamLoop_spamMatch.
      destruct (spamMatch _); [discriminate|].
      destruct (_ && _); [discriminate|].
      apply Z.eqb_neq in C. rewrite C.
      destruct (Num.ltb _ Num.one); discriminate.
    + intros H. rewrite Forall_forall in H.
      split.
      * destruct (filter isCloseable _) as [|a l] eqn:E; [reflexivity|]. exfalso.
        assert (X : In a (filter isCloseable (scanDust_accounts metadataMap tokenAccounts)))
          by (rewrite E; left; reflexivity).
        apply filter_In in X. destruct X as [Ha Hc]. pose proof (H a Ha) as U.
        apply In_scanDust_accounts in Ha. destruct Ha as [p ->].
        cbn [toTokenAccount isCloseable riskLevel] in *.
        apply Z.eqb_eq in Hc. rewrite Hc, classifyTokenRisk_empty in U.
        destruct (spamMatch _); discriminate.
      * destruct (filter isDust _) as [|a l] eqn:E; [reflexivity|]. exfalso.
        assert (X : In a (filter isDust (scanDust_accounts metadataMap tokenAccounts)))
          by (rewrite E; left; reflexivity).
        apply filter_In in X. destruct X as [Ha Hd]. pose proof (H a Ha) as U.
        unfold isDust in Hd. rewrite U in Hd. discriminate.
Qed.

(** X8: [scanDust] only reads: in every run it builds no instruction,
    submits no transaction and reads no line; it returns the list to show,
    having written nothing, or it reports the error thrown by the address
    check or the ledger query and exits with status 1. *)
Theorem scanDust_read_only {P : Platform} (walletAddress : string) (showAll : bool)
    (st : State) :
  let run := scanDust walletAddress showAll st in
  built (log (snd run)) = built (log st)
  /\ submissions (log (snd run)) = submissions (log st)
  /\ answers (log (snd run)) = answers (log st)
  /\ stdin (snd run) = stdin st
  /\ ((exists tokenAccounts metadataMap,
         fst run = Normal (tokensToShow showAll
                             (scanDust_accounts metadataMap tokenAccounts))
         /\ log (snd run) = log st)
      \/ (exists msg,
            fst run = Exit 1 /\ log (snd run) = log st ++ [Out (ErrorMessage msg)])).
Proof.
  cbv zeta.
  pose proof (fetchAccounts_quiet walletAddress st) as [Hq Hin].
  unfold scanDust, try_catch, bind.
  assert (C : fst (fetchAccounts walletAddress st) <> Hang
              /\ forall code, fst (fetchAccounts walletAddress st) <> Exit code).
  { unfold fetchAccounts. destruct (validPublicKey walletAddress); simpl;
      [|split; intros; discriminate].
    destruct (getParsedTokenAccountsByOwner _ _) as [[msg|tas] n1]; simpl;
      [split; intros; discriminate|].
    destruct (fetchTokenMetadata _ n1); simpl. split; intros; discriminate. }
  destruct (fetchAccounts walletAddress st) as [[[tas md]|msg|code|] st1];
    simpl in Hq, Hin, C.
  - simpl. rewrite Hq, Hin. repeat split. left. exists tas, md. auto.
  - simpl. rewrite built_app, submissions_app, answers_app, Hq, Hin, !app_nil_r.
    repeat split. right. exists msg. auto.
  - exfalso. apply (proj2 C code). reflexivity.
  - exfalso. apply (proj1 C). reflexivity.
Qed.

(* ================================================================= *)
(** ** What [cleanDust] may burn *)

(** X9: [cleanDust] builds a burn for a selected account only under
    [--burn], and only when the account is spam-named or its balance, as
    the double [Number(balance) / Math.pow(10, decimals)], is below 1. *)
Theorem burn_only_dust (options : Options) (metadataMap : MetadataMap)
    (tokenAccounts : list ParsedTokenAccount) (kp : Keypair) (a : TokenAccount)
    (from m owner : PublicKey) (amount : Z) :
  In a (toProcess options (map (toTokenAccount metadataMap) tokenAccounts)) ->
  In (BurnInstruction from m owner amount) (accountInstructions kp a) ->
  burn options = true
  /\ (spamMatch (metadata a) = true
      \/ Num.ltb (displayBalance (balance a) (decimals a)) Num.one = true).
Proof.
  intros Ha Hb.
  assert (Hpos : (0 < balance a)%Z).
  { unfold accountInstructions in Hb.
    destruct (0 <? balance a)%Z eqn:E; [apply Z.ltb_lt, E|].
    simpl in Hb. destruct Hb as [Hb|[]]. discriminate. }
  unfold toProcess in Ha. apply in_app_or in Ha. destruct Ha as [Ha|Ha].
  - apply filter_In in Ha. destruct Ha as [Hin Hc].
    apply in_map_iff in Hin. destruct Hin as [p [<- _]].
    simpl in Hc, Hpos. apply Z.eqb_eq in Hc. lia.
  - destruct (burn options); [|contradiction]. split; [reflexivity|].
    apply filter_In in Ha. destruct Ha as [Hin Hd].
    apply in_map_iff in Hin. destruct Hin as [p [<- _]].
    unfold isBurnable, isDust in Hd.
    cbn [toTokenAccount isCloseable riskLevel metadata balance decimals] in *.
    apply andb_prop in Hd. destruct Hd as [_ Hd].
    revert Hd. unfold classifyTokenRisk. rewrite spamLoop_spamMatch.
    destruct (spamMatch _); [auto|]. intros Hd. right.
    destruct (Num.ltb Num.zero _ && Num.ltb _ Num.lit_0_0001) eqn:E2.
    + apply andb_prop in E2. apply below_0_0001_below_one, E2.
    + destruct (parsed_amount p =? 0)%Z; [discriminate|].
      destruct (Num.ltb _ Num.one); [reflexivity | discriminate].
Qed.

(** A balance of 0.00005 tokens, selected under [--burn]. *)
Lemma burn_only_dust_witness :
  burn Scenario.cleanBurn = true
  /\ (spamMatch None = true \/ Num.ltb (displayBalance 50 6) Num.one = true).
Proof.
  exact (burn_only_dust Scenario.cleanBurn Scripted.noMetadata
           (Scripted.chain Scenario.mixedWallet) Scripted.walletOne
           (toTokenAccount Scripted.noMetadata (Scripted.fundedAccount "dust" 50))
           "dust" "mint-dust" "WalletOne" 50
           ltac:(vm_compute; auto) ltac:(vm_compute; auto)).
Defined.

(* ================================================================= *)
(** ** Every run of the interactive loop *)

Section LoopSafety.
Context {P : Platform}.

Lemma selectBy_length {A} (w : Verdict) (vs : list Verdict) (l : list A) :
  List.length (selectBy w vs l) <= List.length l.
Proof.
  revert l. induction vs as [|v vs IH]; intros [|a l]; simpl; try lia.
  specialize (IH l). destruct v, w; simpl; lia.
Qed.

Lemma selectBy_In {A} (w : Verdict) (vs : list Verdict) (l : list A) (a : A) :
  In a (selectBy w vs l) -> In a l.
Proof.
  revert l. induction vs as [|v vs IH]; intros [|b l]; simpl; try contradiction.
  destruct v, w; simpl; intros H; try (right; apply IH, H).
  - destruct H as [H|H]; [left; exact H | right; apply IH, H].
  - destruct H as [H|H]; [left; exact H | right; apply IH, H].
Qed.

Lemma loopSafe_processed (kp : Keypair) (a : TokenAccount)
    (accounts : list TokenAccount) (t t1 : Totals) (st s1 : State)
    (run : Completion Totals * State) (r : string + string) (pre : list Event) :
  log s1 = log st ++ pre ++ accountEvents kp a r ->
  stdin st = answers pre ++ stdin s1 ->
  built pre = [] -> submissions pre = [] -> List.length (answers pre) <= 1 ->
  totalClosed t <= totalClosed t1 <= totalClosed t + 1 ->
  loopSafe kp accounts t1 s1 run ->
  loopSafe kp (a :: accounts) t st run.
Proof.
  intros Hlog Hin Hb Hs Hlen Ht (vs & read & B & S & A & I & L & C).
  destruct (attemptEvents_read kp (accountInstructions kp a) r AccountDone AccountFailed)
    as (E1 & E2 & E3).
  exists (Processed :: vs), (answers pre ++ read). cbn [selectBy flat_map map List.length].
  split; [|split; [|split; [|split; [|split]]]].
  - rewrite B, Hlog. unfold accountEvents. rewrite !built_app, Hb, E1.
    cbn [app]. rewrite <- app_assoc. reflexivity.
  - rewrite S, Hlog. unfold accountEvents. rewrite !submissions_app, Hs, E2.
    cbn [app]. rewrite map_app, <- app_assoc. reflexivity.
  - rewrite A, Hlog. unfold accountEvents. rewrite !answers_app, E3, app_nil_r.
    rewrite <- app_assoc. reflexivity.
  - rewrite Hin, I, app_assoc. reflexivity.
  - rewrite length_app. lia.
  - destruct C as [(t' & Hn & Hc)|Hh];
      [left; exists t'; split; [exact Hn | lia] | right; exact Hh].
Qed.

Lemma loopSafe_skipped (kp : Keypair) (a : TokenAccount)
    (accounts : list TokenAccount) (t : Totals) (st s1 : State)
    (run : Completion Totals * State) (pre : list Event) :
  log s1 = log st ++ pre ->
  stdin st = answers pre ++ stdin s1 ->
  built pre = [] -> submissions pre = [] -> List.length (answers pre) <= 1 ->
  loopSafe kp accounts t s1 run ->
  loopSafe kp (a :: accounts) t st run.
Proof.
  intros Hlog Hin Hb Hs Hlen (vs & read & B & S & A & I & L & C).
  exists (SkippedOne :: vs), (answers pre ++ read). cbn [selectBy List.length].
  split; [|split; [|split; [|split; [|split]]]].
  - rewrite B, Hlog, built_app, Hb, app_nil_r. reflexivity.
  - rewrite S, Hlog, submissions_app, Hs, app_nil_r. reflexivity.
  - rewrite A, Hlog, answers_app, <- app_assoc. reflexivity.
  - rewrite Hin, I, app_assoc. reflexivity.
  - rewrite length_app. lia.
  - exact C.
Qed.

(** The interactive loop is safe from every state of its flags. *)
Lemma interactiveLoop_safe (kp : Keypair) (accounts : list TokenAccount) :
  forall t skipRemaining processAll st,
    loopSafe kp accounts t st (interactiveLoop kp accounts t skipRemaining processAll st).
Proof.
  induction accounts as [|a accounts IH]; intros t skip all st.
  - exists [], []. simpl. rewrite !app_nil_r. repeat split; auto.
    left. exists t. split; [reflexivity | lia].
  - cbn [interactiveLoop]. unfold bind at 1.
    assert (processed : forall pre s0,
      log s0 = log st ++ pre -> stdin st = answers pre ++ stdin s0 ->
      built pre = [] -> submissions pre = [] -> List.length (answers pre) <= 1 ->
      forall sk al,
      loopSafe kp (a :: accounts) t st
        (bind (processAccount kp a t)
              (fun totals' => interactiveLoop kp accounts totals' sk al) s0)).
    { intros pre s0 Hlog Hin Hb Hs Hlen sk al. unfold bind.
      rewrite processAccount_run.
      refine (loopSafe_processed kp a accounts t _ st _ _ _ pre _ _ Hb Hs Hlen _
                (IH _ _ _ _));
        first [ cbn [log]; rewrite Hlog, <- app_assoc; reflexivity
              | cbn [stdin]; exact Hin
              | destruct (confirmed _); cbn [totalClosed]; lia ]. }
    assert (skipped : forall pre s0,
      log s0 = log st ++ pre -> stdin st = answers pre ++ stdin s0 ->
      built pre = [] -> submissions pre = [] -> List.length (answers pre) <= 1 ->
      forall sk al,
      loopSafe kp (a :: accounts) t st (interactiveLoop kp accounts t sk al s0)).
    { intros pre s0 Hlog Hin Hb Hs Hlen sk al.
      exact (loopSafe_skipped kp a accounts t st s0 _ pre Hlog Hin Hb Hs Hlen
               (IH _ _ _ _)). }
    destruct all.
    + unfold decide. cbn [ret].
      apply processed with (pre := []); auto. symmetry. apply app_nil_r.
    + destruct skip.
      * unfold decide. cbn [negb ret]. unfold bind at 1. cbn [ret].
        apply skipped with (pre := []); auto. symmetry. apply app_nil_r.
      * rewrite decide_ask.
        destruct (stdin st) as [|line rest] eqn:Hin.
        -- exists [], []. cbn [fst snd selectBy flat_map map List.length app].
           rewrite !app_nil_r. repeat split; auto; try lia.
        -- destruct (readCommand line).
           ++ apply processed with (pre := [Asked line]); auto.
           ++ apply processed with (pre := [Asked line]); auto.
           ++ unfold bind at 1. cbn [ret].
              apply skipped with (pre := [Asked line]); auto.
           ++ unfold bind at 1. cbn [ret].
              apply skipped with (pre := [Asked line]); auto.
Qed.

End LoopSafety.

(* ================================================================= *)
(** ** Every run of the processors *)

Lemma authorisedBy_accountInstructions (kp : Keypair) (l : list TokenAccount) :
  Forall (authorisedBy (publicKey kp)) (flat_map (accountInstructions kp) l).
Proof.
  induction l as [|a l IH]; simpl; [constructor|].
  apply Forall_app. split; [|exact IH].
  unfold accountInstructions. destruct (0 <? balance a)%Z; repeat constructor.
Qed.

Lemma closes_app (l1 l2 : list Instruction) : closes (l1 ++ l2) = closes l1 ++ closes l2.
Proof.
  induction l1 as [|i l1 IH]; simpl; [reflexivity|].
  destruct i; simpl; rewrite IH; reflexivity.
Qed.

Lemma closes_accountInstructions (kp : Keypair) (l : list TokenAccount) :
  closes (flat_map (accountInstructions kp) l) = map pubkey l.
Proof.
  induction l as [|a l IH]; simpl; [reflexivity|].
  rewrite closes_app, IH. unfold accountInstructions.
  destruct (0 <? balance a)%Z; reflexivity.
Qed.

Lemma accountInstructions_length (kp : Keypair) (a : TokenAccount) :
  1 <= List.length (accountInstructions kp a) <= 2.
Proof. unfold accountInstructions. destruct (0 <? balance a)%Z; simpl; lia. Qed.

Lemma batchTransaction_length (kp : Keypair) (b : list TokenAccount) :
  List.length b <= List.length (batchTransaction kp b) <= 2 * List.length b.
Proof.
  unfold batchTransaction. induction b as [|a b IH]; simpl; [lia|].
  rewrite length_app. pose proof (accountInstructions_length kp a). lia.
Qed.

Lemma batchTransaction_concat (kp : Keypair) (bs : list (list TokenAccount)) :
  concat (map (batchTransaction kp) bs) = flat_map (accountInstructions kp) (concat bs).
Proof.
  induction bs as [|b bs IH]; simpl; [reflexivity|].
  rewrite IH, flat_map_app. reflexivity.
Qed.

Lemma answers_batchesEvents (kp : Keypair) (bs : list (list TokenAccount)) :
  forall results, answers (batchesEvents kp bs results) = [].
Proof.
  induction bs as [|b bs IH]; intros [|r rs]; simpl; auto.
  rewrite answers_app, IH. unfold batchEvents.
  rewrite (proj2 (proj2 (attemptEvents_read _ _ _ _ _))). reflexivity.
Qed.

(** The count after the confirmed batches is at most the number of
    accounts, and reaches it only when every batch confirmed. *)
Lemma confirmedBatches_count (bs : list (list TokenAccount)) :
  Forall (fun b => 1 <= List.length b) bs ->
  forall results, List.length results = List.length bs ->
    closedAfter 0 (confirmedBatches bs results)
    <= list_sum (map (@List.length _) bs)
    /\ (closedAfter 0 (confirmedBatches bs results)
        = list_sum (map (@List.length _) bs)
        <-> Forall (fun r => confirmed r = true) results).
Proof.
  unfold closedAfter. cbn [Nat.add].
  induction 1 as [|b bs Hb Hbs IH]; intros [|r rs] Hlen; simpl in *; try discriminate.
  - split; [lia|]. split; auto.
  - destruct (IH rs ltac:(lia)) as [Hle Hiff].
    destruct (confirmed r) eqn:Hr; simpl.
    + split; [lia|]. split.
      * intros E. constructor; [exact Hr|]. apply Hiff. lia.
      * intros F. inversion F; subst. apply Hiff in H2. lia.
    + split; [lia|]. split.
      * intros E. lia.
      * intros F. inversion F; subst. congruence.
Qed.

Section ProcessorRuns.
Context {P : Platform}.

(** The whole of a batch run. *)
Lemma batchProcess_outcome (kp : Keypair) (accounts : list TokenAccount) (st : State) :
  exists results st',
    batchProcess kp accounts st = (Normal tt, st')
    /\ List.length results = List.length (batches accounts 0)
    /\ stdin st' = stdin st
    /\ log st' =
         log st ++ batchesEvents kp (batches accounts 0) results
         ++ [Out (Summary
                    (closedAfter 0 (confirmedBatches (batches accounts 0) results))
                    (recoveredAfter Num.zero
                       (confirmedBatches (batches accounts 0) results)))].
Proof.
  unfold batchProcess, bind. rewrite batchLoop_fold.
  destruct (foldBatches_run kp (batches accounts 0) (mkTotals 0 Num.zero) st)
    as (results & st1 & Hrun & Hlen & Hin & Hlog).
  exists results. eexists. rewrite Hrun. unfold print, emit.
  cbn [totalClosed totalRecovered].
  split; [reflexivity|]. cbn [stdin log].
  rewrite Hlog, <- app_assoc. auto.
Qed.

(** X10: [batchProcess] reads no line and always returns; it builds, for
    every account in order, the close of that account and no other close,
    all of them authorised by the key; and the transactions it submits
    carry exactly those instructions, each between one and ten of them. *)
Theorem batchProcess_closes_each_once (kp : Keypair) (accounts : list TokenAccount)
    (st : State) :
  let run := batchProcess kp accounts st in
  fst run = Normal tt
  /\ stdin (snd run) = stdin st
  /\ answers (log (snd run)) = answers (log st)
  /\ exists new txs,
       built (log (snd run)) = built (log st) ++ new
       /\ closes new = map pubkey accounts
       /\ Forall (authorisedBy (publicKey kp)) new
       /\ map fst (submissions (log (snd run)))
          = map fst (submissions (log st)) ++ txs
       /\ concat txs = new
       /\ Forall (fun tx => 1 <= List.length tx <= 2 * batchSize) txs.
Proof.
  cbv zeta.
  destruct (batchProcess_outcome kp accounts st)
    as (results & st' & Hrun & Hlen & Hin & Hlog).
  rewrite Hrun. cbn [fst snd].
  split; [reflexivity|]. split; [exact Hin|].
  rewrite Hlog, !answers_app, !built_app, !submissions_app.
  rewrite answers_batchesEvents, built_batchesEvents, submissions_batchesEvents
    by exact Hlen.
  cbn [answers built submissions]. rewrite !app_nil_r, batches_concat.
  split; [reflexivity|].
  exists (flat_map (accountInstructions kp) accounts),
         (map (batchTransaction kp) (batches accounts 0)).
  split; [reflexivity|].
  split; [apply closes_accountInstructions|].
  split; [apply authorisedBy_accountInstructions|].
  split.
  { rewrite map_app, map_fst_combine by (rewrite length_map; exact Hlen). reflexivity. }
  split.
  { rewrite batchTransaction_concat, batches_concat. reflexivity. }
  apply Forall_map.
  eapply Forall_impl; [|apply (proj1 (batches_sizes accounts 0))].
  intros b Hb. cbn beta in Hb.
  pose proof (batchTransaction_length kp b). unfold batchSize in *. lia.
Qed.

(** X11: the count in the summary of [batchProcess] never exceeds the
    number of accounts, and equals it exactly when every submission
    confirmed. *)
Theorem batchProcess_count (kp : Keypair) (accounts : list TokenAccount) (st : State) :
  exists results closed recovered trace,
    log (snd (batchProcess kp accounts st))
    = log st ++ trace ++ [Out (Summary closed recovered)]
    /\ map snd (submissions trace) = results
    /\ closed <= List.length accounts
    /\ (closed = List.length accounts <-> Forall (fun r => confirmed r = true) results).
Proof.
  destruct (batchProcess_outcome kp accounts st)
    as (results & st' & Hrun & Hlen & Hin & Hlog).
  rewrite Hrun. cbn [snd].
  exists results. do 2 eexists. exists (batchesEvents kp (batches accounts 0) results).
  split; [exact Hlog|].
  split.
  { rewrite submissions_batchesEvents by exact Hlen.
    apply map_snd_combine. rewrite length_map. exact Hlen. }
  assert (N : list_sum (map (@List.length _) (batches accounts 0)) = List.length accounts).
  { rewrite <- length_concat, batches_concat. reflexivity. }
  rewrite <- N. apply confirmedBatches_count; [|exact Hlen].
  eapply Forall_impl; [|apply (proj1 (batches_sizes accounts 0))].
  intros b Hb. cbn beta in Hb. lia.
Qed.

End ProcessorRuns.

Section InteractiveRuns.
Context {P : Platform}.

(** X12: in every run of [interactiveClean], blocked ones included, the
    transactions submitted are those of some of the accounts, each at most
    once and in order, one transaction per account; the instructions built
    are theirs and no other; the lines read come from the front of the
    input, at most one per account; and the run ends normally with a
    summary that counts no more than it submitted, or it is blocked at a
    prompt with no line left. *)
Theorem interactiveClean_every_run (kp : Keypair) (accounts : list TokenAccount)
    (st : State) :
  let run := interactiveClean kp accounts st in
  exists verdicts read,
    let processed := selectBy Processed verdicts accounts in
    (forall a, In a processed -> In a accounts)
    /\ List.length processed <= List.length accounts
    /\ map fst (submissions (log (snd run)))
       = map fst (submissions (log st)) ++ map (accountInstructions kp) processed
    /\ built (log (snd run))
       = built (log st) ++ flat_map (accountInstructions kp) processed
    /\ answers (log (snd run)) = answers (log st) ++ read
    /\ stdin st = read ++ stdin (snd run)
    /\ List.length read <= List.length accounts
    /\ ((fst run = Normal tt
         /\ exists trace closed recovered,
              log (snd run) = trace ++ [Out (Summary closed recovered)]
              /\ closed <= List.length processed)
        \/ (fst run = Hang /\ stdin (snd run) = [])).
Proof.
  cbv zeta. unfold interactiveClean, bind.
  destruct (interactiveLoop_safe kp accounts (mkTotals 0 Num.zero) false false st)
    as (vs & read & B & S & A & I & L & C).
  exists vs, read.
  split; [intros a; apply selectBy_In|]. split; [apply selectBy_length|].
  destruct (interactiveLoop kp accounts _ false false st) as [[t'|msg|code|] st'];
    cbn [fst snd] in *.
  - unfold print, emit. cbn [fst snd log stdin].
    rewrite built_app, submissions_app, answers_app. cbn [built submissions answers].
    rewrite !app_nil_r.
    repeat (split; [assumption|]).
    left. split; [reflexivity|].
    exists (log st'), (totalClosed t'), (totalRecovered t'). split; [reflexivity|].
    destruct C as [(t'' & Hn & Hc)|[Hh _]]; [|discriminate].
    inversion Hn; subst t''. cbn [totalClosed] in Hc. lia.
  - destruct C as [(t'' & Hn & _)|[Hh _]]; discriminate.
  - destruct C as [(t'' & Hn & _)|[Hh _]]; discriminate.
  - repeat (split; [assumption|]).
    right. destruct C as [(t'' & Hn & _)|Hh]; [discriminate|]. split; [reflexivity|apply Hh].
Qed.

(** X13: what [interactiveClean] asks and what it submits do not depend
    on the network: from two states with the same lines to read, the two
    runs block together or end together, having read the same lines and
    submitted the same transactions, whatever became of each submission. *)
Theorem interactiveClean_flow_ignores_network (kp : Keypair)
    (accounts : list TokenAccount) (st1 st2 : State) :
  stdin st1 = stdin st2 ->
  let run1 := interactiveClean kp accounts st1 in
  let run2 := interactiveClean kp accounts st2 in
  (fst run1 = Hang /\ fst run2 = Hang)
  \/ (fst run1 = Normal tt /\ fst run2 = Normal tt
      /\ stdin (snd run1) = stdin (snd run2)
      /\ exists txs,
           map fst (submissions (log (snd run1)))
           = map fst (submissions (log st1)) ++ txs
           /\ map fst (submissions (log (snd run2)))
              = map fst (submissions (log st2)) ++ txs).
Proof.
  intros Hin. cbv zeta. unfold interactiveClean, bind.
  pose proof (interactiveLoop_run kp accounts (mkTotals 0 Num.zero) false false st1) as H1.
  pose proof (interactiveLoop_run kp accounts (mkTotals 0 Num.zero) false false st2) as H2.
  rewrite <- Hin in H2. cbn [modeOf] in H1, H2.
  destruct (machine ASK (List.length accounts) (stdin st1)) as [[verdicts rest]|];
    cbn [loopOutcome] in H1, H2.
  - right.
    destruct H1 as (tr1 & rs1 & s1 & R1 & I1 & L1 & _ & S1 & Len1 & _).
    destruct H2 as (tr2 & rs2 & s2 & R2 & I2 & L2 & _ & S2 & Len2 & _).
    rewrite R1, R2. unfold print, emit. cbn [fst snd stdin log].
    split; [reflexivity|]. split; [reflexivity|].
    split; [congruence|].
    exists (map (accountInstructions kp) (selectBy Processed verdicts accounts)).
    rewrite L1, L2, !submissions_app, S1, S2. cbn [submissions].
    rewrite !app_nil_r, !map_app.
    rewrite !map_fst_combine by (rewrite length_map; assumption). auto.
  - left.
    destruct (interactiveLoop kp accounts _ false false st1) as [[?| | |] ?];
      cbn [fst] in H1; try discriminate.
    destruct (interactiveLoop kp accounts _ false false st2) as [[?| | |] ?];
      cbn [fst] in H2; try discriminate.
    auto.
Qed.

End InteractiveRuns.

(** Four holdings and the lines [y, a], once on a network that confirms
    and once on one where every submission fails. *)
Lemma interactiveClean_flow_ignores_network_witness :
  (fst (interactiveClean Scripted.walletOne Scripted.four
          (Scripted.start ["y"; "a"] Scripted.quietNet)) = Hang
   /\ fst (interactiveClean Scripted.walletOne Scripted.four
            (Scripted.start ["y"; "a"] Scenario.failingNet)) = Hang)
  \/ (fst (interactiveClean Scripted.walletOne Scripted.four
             (Scripted.start ["y"; "a"] Scripted.quietNet)) = Normal tt
      /\ fst (interactiveClean Scripted.walletOne Scripted.four
                (Scripted.start ["y"; "a"] Scenario.failingNet)) = Normal tt
      /\ stdin (snd (interactiveClean Scripted.walletOne Scripted.four
                       (Scripted.start ["y"; "a"] Scripted.quietNet)))
         = stdin (snd (interactiveClean Scripted.walletOne Scripted.four
                         (Scripted.start ["y"; "a"] Scenario.failingNet)))
      /\ exists txs,
           map fst (submissions
                      (log (snd (interactiveClean Scripted.walletOne Scripted.four
                                   (Scripted.start ["y"; "a"] Scripted.quietNet)))))
           = map fst (submissions []) ++ txs
           /\ map fst (submissions
                         (log (snd (interactiveClean Scripted.walletOne Scripted.four
                                      (Scripted.start ["y"; "a"] Scenario.failingNet)))))
              = map fst (submissions []) ++ txs).
Proof.
  exact (@interactiveClean_flow_ignores_network Scripted.platform Scripted.walletOne
           Scripted.four (Scripted.start ["y"; "a"] Scripted.quietNet)
           (Scripted.start ["y"; "a"] Scenario.failingNet) eq_refl).
Defined.

Section ProcessorBuilt.
Context {P : Platform}.

(** What a batch run builds: the instructions of every account. *)
Lemma batchProcess_built (kp : Keypair) (accounts : list TokenAccount) (st : State) :
  exists st',
    batchProcess kp accounts st = (Normal tt, st')
    /\ stdin st' = stdin st
    /\ built (log st') = built (log st) ++ flat_map (accountInstructions kp) accounts.
Proof.
  destruct (batchProcess_outcome kp accounts st)
    as (results & st' & Hrun & Hlen & Hin & Hlog).
  exists st'. split; [exact Hrun|]. split; [exact Hin|].
  rewrite Hlog, !built_app, built_batchesEvents by exact Hlen.
  rewrite batches_concat. cbn [built]. rewrite app_nil_r. reflexivity.
Qed.

(** What an interactive run builds and reads, and how it ends. *)
Lemma interactiveClean_built (kp : Keypair) (accounts : list TokenAccount) (st : State) :
  let run := interactiveClean kp accounts st in
  exists processed read,
    built (log (snd run)) = built (log st) ++ flat_map (accountInstructions kp) processed
    /\ stdin st = read ++ stdin (snd run)
    /\ (fst run = Normal tt \/ (fst run = Hang /\ stdin (snd run) = [])).
Proof.
  cbv zeta. unfold interactiveClean, bind.
  destruct (interactiveLoop_safe kp accounts (mkTotals 0 Num.zero) false false st)
    as (vs & read & B & _ & _ & Hst & _ & C).
  exists (selectBy Processed vs accounts), read.
  destruct (interactiveLoop kp accounts _ false false st) as [[t'|msg|code|] st'];
    cbn [fst snd] in *.
  - unfold print, emit. cbn [fst snd log stdin].
    rewrite built_app. cbn [built]. rewrite app_nil_r. auto.
  - destruct C as [(t'' & Hn & _)|[Hh _]]; discriminate.
  - destruct C as [(t'' & Hn & _)|[Hh _]]; discriminate.
  - split; [exact B|]. split; [exact Hst|]. right.
    destruct C as [(t'' & Hn & _)|Hh]; [discriminate|]. split; [reflexivity|apply Hh].
Qed.

End ProcessorBuilt.

(* ================================================================= *)
(** ** Every run of [cleanDust] *)

Section CleanRuns.
Context {P : Platform}.

Lemma fetchAccounts_completes (walletAddress : string) (st : State) :
  (exists fetched, fst (fetchAccounts walletAddress st) = Normal fetched)
  \/ (exists msg, fst (fetchAccounts walletAddress st) = Throw msg).
Proof.
  unfold fetchAccounts. destruct (validPublicKey walletAddress); simpl; [|eauto].
  destruct (getParsedTokenAccountsByOwner _ _) as [[msg|tas] n1]; simpl; [eauto|].
  destruct (fetchTokenMetadata _ n1); simpl. eauto.
Qed.

(** How a run ends, what it builds and what it reads, on every path. *)
Lemma cleanDust_safe (walletAddress : string) (options : Options) (st : State) :
  let run := cleanDust walletAddress options st in
  (fst run = Normal tt \/ fst run = Exit 1
   \/ (fst run = Hang /\ stdin (snd run) = []))
  /\ (exists new,
        built (log (snd run)) = built (log st) ++ new
        /\ Forall (authorisedBy walletAddress) new)
  /\ exists read, stdin st = read ++ stdin (snd run).
Proof.
  cbv zeta.
  pose proof (fetchAccounts_quiet walletAddress st) as [Hq Hin].
  pose proof (fetchAccounts_completes walletAddress st) as Hc.
  assert (quiet : forall (c : Completion unit) (inp : list string) (l evs : list Event),
            c = Normal tt \/ c = Exit 1 ->
            l = log st ++ evs -> built evs = [] -> inp = stdin st ->
            (c = Normal tt \/ c = Exit 1 \/ (c = Hang /\ inp = []))
            /\ (exists new, built l = built (log st) ++ new
                            /\ Forall (authorisedBy walletAddress) new)
            /\ exists read, stdin st = read ++ inp).
  { intros c inp l evs Hcase Hlog Hb Hs. split; [tauto|]. split.
    - exists []. rewrite Hlog, built_app, Hb. split; [reflexivity | constructor].
    - exists []. rewrite Hs. reflexivity. }
  unfold cleanDust, try_catch, bind.
  destruct (fetchAccounts walletAddress st) as [[[tas md]|msg|code|] st1];
    cbn [fst snd] in *.
  2:{ cbn. apply (quiet _ _ _ [Out (ErrorMessage msg)]); auto; congruence. }
  2:{ destruct Hc as [[? Hc]|[? Hc]]; discriminate. }
  2:{ destruct Hc as [[? Hc]|[? Hc]]; discriminate. }
  destruct (toProcess options (map (toTokenAccount md) tas)) as [|a sel] eqn:Esel.
  { cbn. apply (quiet _ _ _ [Out NothingToClean]); auto; congruence. }
  cbn [List.length Nat.eqb].
  destruct (dryRun options).
  { unfold print, emit. cbn [fst snd]. rewrite printDryRun_run. cbn [fst snd].
    apply (quiet _ _ _ (Out DryRunNotice :: dryRunEntries 0 (a :: sel))); auto.
    - cbn [log]. rewrite Hq, <- app_assoc. reflexivity.
    - cbn [built]. apply (built_dryRunEntries (a :: sel) 0). }
  destruct (keypair options) as [path|].
  2:{ cbn. apply (quiet _ _ _ [Out KeypairRequired]); auto; congruence. }
  destruct (loadKeypair path) as [kp|msg]; cbn [ofThrown].
  2:{ cbn. apply (quiet _ _ _ [Out (ErrorMessage msg)]); auto; congruence. }
  cbn [ret fst snd].
  destruct (publicKey kp =? walletAddress)%string eqn:Ek; cbn [negb].
  2:{ cbn. apply (quiet _ _ _ [Out (KeypairMismatch (publicKey kp) walletAddress)]); auto.
      cbn [log]. congruence. }
  apply String.eqb_eq in Ek.
  destruct (interactive options).
  { destruct (interactiveClean_built kp (a :: sel) st1)
      as (processed & read & B & Hst & C).
    cbv zeta in *.
    assert (K : forall (c : Completion unit) s,
              interactiveClean kp (a :: sel) st1 = (c, s) ->
              match c with Throw _ => False | Exit _ => False | _ => True end).
    { intros c s E. rewrite E in C. cbn [fst] in C.
      destruct C as [->|[-> _]]; exact I. }
    destruct (interactiveClean kp (a :: sel) st1) as [[[]|msg|code|] s2] eqn:E;
      cbn [fst snd] in *;
      try (exfalso; exact (K _ _ eq_refl)).
    - split; [auto|]. split.
      + eexists. rewrite B, Hq. split; [reflexivity|].
        rewrite <- Ek. apply authorisedBy_accountInstructions.
      + exists read. congruence.
    - split; [right; right; destruct C as [?|[_ ?]]; [discriminate|auto]|]. split.
      + eexists. rewrite B, Hq. split; [reflexivity|].
        rewrite <- Ek. apply authorisedBy_accountInstructions.
      + exists read. congruence. }
  destruct (yes options); cbn [negb].
  { cbn [ret fst snd].
    destruct (batchProcess_built kp (a :: sel) st1) as (s2 & Hrun & Hs & B).
    rewrite Hrun. cbn [fst snd].
    split; [auto|]. split.
    - eexists. rewrite B, Hq. split; [reflexivity|].
      rewrite <- Ek. apply authorisedBy_accountInstructions.
    - exists []. cbn [app]. congruence. }
  unfold question. destruct (stdin st1) as [|line rest] eqn:Est.
  { cbn [fst snd]. split; [auto|]. split.
    - exists []. rewrite Hq, app_nil_r. split; [reflexivity | constructor].
    - exists []. cbn [app]. congruence. }
  cbn [ret fst snd].
  destruct (toLowerCase line =? "y")%string.
  - destruct (batchProcess_built kp (a :: sel)
                (mkState rest (net st1) (log st1 ++ [Asked line])))
      as (s2 & Hrun & Hs & B).
    rewrite Hrun. cbn [fst snd log stdin] in *.
    split; [auto|]. split.
    + eexists. rewrite B, built_app, Hq, app_nil_r. split; [reflexivity|].
      rewrite <- Ek. apply authorisedBy_accountInstructions.
    + exists [line]. rewrite Hs, <- Hin. reflexivity.
  - cbn. split; [auto|]. split.
    + exists []. rewrite !built_app, Hq, !app_nil_r. split; [reflexivity | constructor].
    + exists [line]. rewrite <- Hin. reflexivity.
Qed.

End CleanRuns.

Section CleanPaths.
Context {P : Platform}.

(** X14: no exception leaves [cleanDust]: every run returns, or exits
    with status 1, or is blocked at a prompt with no line left to read;
    and what it has read, it has read from the front of the input. *)
Theorem cleanDust_ends (walletAddress : string) (options : Options) (st : State) :
  let run := cleanDust walletAddress options st in
  (fst run = Normal tt \/ fst run = Exit 1
   \/ (fst run = Hang /\ stdin (snd run) = []))
  /\ exists read, stdin st = read ++ stdin (snd run).
Proof.
  cbv zeta. destruct (cleanDust_safe walletAddress options st) as (H1 & _ & H3).
  split; assumption.
Qed.

(** X15: every instruction [cleanDust] builds, in every run, has the
    wallet address as its authority, and every close sends the reserve to
    the wallet address. *)
Theorem cleanDust_only_for_the_wallet (walletAddress : string) (options : Options)
    (st : State) :
  exists new,
    built (log (snd (cleanDust walletAddress options st))) = built (log st) ++ new
    /\ Forall (authorisedBy walletAddress) new.
Proof.
  destruct (cleanDust_safe walletAddress options st) as (_ & H2 & _). exact H2.
Qed.

(** X16: when nothing is selected, [cleanDust] says so and returns,
    whatever the options: it asks for no key and reads no line. *)
Theorem cleanDust_nothing_to_clean (walletAddress : string) (options : Options)
    (st st1 : State) (tokenAccounts : list ParsedTokenAccount)
    (metadataMap : MetadataMap) :
  fetchAccounts walletAddress st = (Normal (tokenAccounts, metadataMap), st1) ->
  toProcess options (map (toTokenAccount metadataMap) tokenAccounts) = [] ->
  let run := cleanDust walletAddress options st in
  fst run = Normal tt
  /\ log (snd run) = log st ++ [Out NothingToClean]
  /\ stdin (snd run) = stdin st.
Proof.
  intros F Hsel. cbv zeta.
  pose proof (fetchAccounts_quiet walletAddress st) as [Hq Hin].
  unfold cleanDust, try_catch, bind. rewrite F in *. cbn [fst snd] in *.
  rewrite Hsel. cbn. rewrite Hq, Hin. auto.
Qed.

(** X17: with something to process and no dry run, a run without
    [--keypair] prints that a key is required and exits with status 1. *)
Theorem cleanDust_needs_keypair (walletAddress : string) (options : Options)
    (st st1 : State) (tokenAccounts : list ParsedTokenAccount)
    (metadataMap : MetadataMap) :
  fetchAccounts walletAddress st = (Normal (tokenAccounts, metadataMap), st1) ->
  toProcess options (map (toTokenAccount metadataMap) tokenAccounts) <> [] ->
  dryRun options = false ->
  keypair options = None ->
  let run := cleanDust walletAddress options st in
  fst run = Exit 1
  /\ log (snd run) = log st ++ [Out KeypairRequired]
  /\ stdin (snd run) = stdin st.
Proof.
  intros F Hsel Hdry Hk. cbv zeta.
  pose proof (fetchAccounts_quiet walletAddress st) as [Hq Hin].
  unfold cleanDust, try_catch, bind. rewrite F in *. cbn [fst snd] in *.
  rewrite (nonempty_length _ Hsel), Hdry, Hk. cbn. rewrite Hq, Hin. auto.
Qed.

(** X18: an error thrown while the accounts are fetched, by the address
    check or by the ledger query, is printed, and the run exits with
    status 1 having done nothing else. *)
Theorem cleanDust_reports_fetch_failure (walletAddress : string) (options : Options)
    (st : State) (msg : string) :
  fst (fetchAccounts walletAddress st) = Throw msg ->
  let run := cleanDust walletAddress options st in
  fst run = Exit 1
  /\ log (snd run) = log st ++ [Out (ErrorMessage msg)]
  /\ stdin (snd run) = stdin st.
Proof.
  intros F. cbv zeta.
  pose proof (fetchAccounts_quiet walletAddress st) as [Hq Hin].
  unfold cleanDust, try_catch, bind.
  destruct (fetchAccounts walletAddress st) as [c st1]. cbn [fst snd] in *. subst c.
  cbn. rewrite Hq, Hin. auto.
Qed.

(** X19: when the key file at the path given with [--keypair], a path
    that is not the empty string, cannot be loaded, the error of
    [loadKeypair] is printed and the run exits with status 1 having built
    nothing.  (The source takes an empty path for a missing option, line
    399.) *)
Theorem cleanDust_reports_key_failure (walletAddress : string) (options : Options)
    (st st1 : State) (tokenAccounts : list ParsedTokenAccount)
    (metadataMap : MetadataMap) (keypairPath msg : string) :
  fetchAccounts walletAddress st = (Normal (tokenAccounts, metadataMap), st1) ->
  toProcess options (map (toTokenAccount metadataMap) tokenAccounts) <> [] ->
  dryRun options = false ->
  keypair options = Some keypairPath ->
  keypairPath <> ""%string ->
  loadKeypair keypairPath = Threw msg ->
  let run := cleanDust walletAddress options st in
  fst run = Exit 1
  /\ log (snd run) = log st ++ [Out (ErrorMessage msg)]
  /\ stdin (snd run) = stdin st.
Proof.
  intros F Hsel Hdry Hk _ Hload. cbv zeta.
  pose proof (fetchAccounts_quiet walletAddress st) as [Hq Hin].
  unfold cleanDust, try_catch, bind. rewrite F in *. cbn [fst snd] in *.
  rewrite (nonempty_length _ Hsel), Hdry, Hk, Hload. cbn. rewrite Hq, Hin. auto.
Qed.

(** X20: in batch mode without [--yes] the run reads one line.  Unless
    the line is [y] or [Y] it prints that it aborts and returns, having
    built nothing; the line [yes] aborts.  On [y] or [Y] it submits the
    batches of the selection. *)
Theorem cleanDust_confirmation (walletAddress : string) (options : Options)
    (st st1 : State) (tokenAccounts : list ParsedTokenAccount)
    (metadataMap : MetadataMap) (keypairPath : string) (kp : Keypair)
    (line : string) (rest : list string) :
  fetchAccounts walletAddress st = (Normal (tokenAccounts, metadataMap), st1) ->
  toProcess options (map (toTokenAccount metadataMap) tokenAccounts) <> [] ->
  dryRun options = false ->
  keypair options = Some keypairPath ->
  loadKeypair keypairPath = Returned kp ->
  publicKey kp = walletAddress ->
  interactive options = false ->
  yes options = false ->
  stdin st = line :: rest ->
  let selected := toProcess options (map (toTokenAccount metadataMap) tokenAccounts) in
  let run := cleanDust walletAddress options st in
  fst run = Normal tt
  /\ stdin (snd run) = rest
  /\ (toLowerCase line <> "y" ->
      log (snd run) = log st ++ [Asked line; Out Aborted])
  /\ (toLowerCase line = "y" ->
      map fst (submissions (log (snd run)))
      = map fst (submissions (log st))
        ++ map (batchTransaction kp) (batches selected 0)).
Proof.
  intros F Hsel Hdry Hk Hload Hpk Hint Hyes Hline. cbv zeta.
  pose proof (fetchAccounts_quiet walletAddress st) as [Hq Hin].
  unfold cleanDust, try_catch, bind. rewrite F in *. cbn [fst snd] in *.
  rewrite (nonempty_length _ Hsel), Hdry, Hk, Hload. cbn [ofThrown ret].
  apply String.eqb_eq in Hpk. rewrite Hpk, Hint, Hyes. cbn [negb].
  unfold question. rewrite Hin, Hline. cbn [ret].
  destruct (toLowerCase line =? "y")%string eqn:E.
  - apply String.eqb_eq in E.
    destruct (batchProcess_outcome kp
                (toProcess options (map (toTokenAccount metadataMap) tokenAccounts))
                (mkState rest (net st1) (log st1 ++ [Asked line])))
      as (results & s2 & Hrun & Hlen & Hs & Hlog).
    rewrite Hrun. cbn [fst snd stdin log] in *.
    split; [reflexivity|]. split; [exact Hs|]. split; [intros C; contradiction|].
    intros _. rewrite Hlog, Hq, !submissions_app.
    rewrite submissions_batchesEvents by exact Hlen.
    cbn [submissions]. rewrite !app_nil_r, map_app.
    rewrite map_fst_combine by (rewrite length_map; exact Hlen). reflexivity.
  - apply String.eqb_neq in E. cbn.
    split; [reflexivity|]. split; [reflexivity|].
    split; [intros _; rewrite Hq, <- app_assoc; reflexivity | intros C; contradiction].
Qed.

End CleanPaths.

(** A wallet whose one account holds a large balance: nothing to clean,
    and no key asked for. *)
Lemma cleanDust_nothing_to_clean_witness :
  fst (cleanDust "WalletOne" Scenario.cleanNoKey
         (Scripted.start [] Scenario.fullWallet)) = Normal tt
  /\ log (snd (cleanDust "WalletOne" Scenario.cleanNoKey
                 (Scripted.start [] Scenario.fullWallet)))
     = [Out NothingToClean]
  /\ stdin (snd (cleanDust "WalletOne" Scenario.cleanNoKey
                   (Scripted.start [] Scenario.fullWallet))) = [].
Proof.
  exact (@cleanDust_nothing_to_clean Scripted.platform "WalletOne" Scenario.cleanNoKey
           (Scripted.start [] Scenario.fullWallet) _ _ _ eq_refl eq_refl).
Defined.

Lemma cleanDust_needs_keypair_witness :
  fst (cleanDust "WalletOne" Scenario.cleanNoKey
         (Scripted.start [] Scripted.twoEmpty)) = Exit 1
  /\ log (snd (cleanDust "WalletOne" Scenario.cleanNoKey
                 (Scripted.start [] Scripted.twoEmpty)))
     = [Out KeypairRequired]
  /\ stdin (snd (cleanDust "WalletOne" Scenario.cleanNoKey
                   (Scripted.start [] Scripted.twoEmpty))) = [].
Proof.
  exact (@cleanDust_needs_keypair Scripted.platform "WalletOne" Scenario.cleanNoKey
           (Scripted.start [] Scripted.twoEmpty) _ _ _ eq_refl
           ltac:(discriminate) eq_refl eq_refl).
Defined.

(** The empty string is no address. *)
Lemma cleanDust_reports_fetch_failure_witness :
  fst (cleanDust "" Scripted.cleanWithKey (Scripted.start [] Scripted.twoEmpty)) = Exit 1
  /\ log (snd (cleanDust "" Scripted.cleanWithKey (Scripted.start [] Scripted.twoEmpty)))
     = [Out (ErrorMessage "Invalid public key input")]
  /\ stdin (snd (cleanDust "" Scripted.cleanWithKey
                   (Scripted.start [] Scripted.twoEmpty))) = [].
Proof.
  exact (@cleanDust_reports_fetch_failure Scripted.platform "" Scripted.cleanWithKey
           (Scripted.start [] Scripted.twoEmpty) _ eq_refl).
Defined.

(** A key file that holds neither encoding. *)
Lemma cleanDust_reports_key_failure_witness :
  fst (cleanDust "WalletOne" Scenario.cleanBadKey
         (Scripted.start [] Scripted.twoEmpty)) = Exit 1
  /\ log (snd (cleanDust "WalletOne" Scenario.cleanBadKey
                 (Scripted.start [] Scripted.twoEmpty)))
     = [Out (ErrorMessage INVALID_KEYPAIR_FORMAT)]
  /\ stdin (snd (cleanDust "WalletOne" Scenario.cleanBadKey
                   (Scripted.start [] Scripted.twoEmpty))) = [].
Proof.
  exact (@cleanDust_reports_key_failure Scripted.platform "WalletOne"
           Scenario.cleanBadKey (Scripted.start [] Scripted.twoEmpty) _ _ _
           "/keys/notes.txt" _ eq_refl ltac:(discriminate) eq_refl eq_refl
           ltac:(discriminate) eq_refl).
Defined.

(** The operator answers [yes] to the batch prompt: the run aborts. *)
Lemma cleanDust_confirmation_witness :
  fst (cleanDust "WalletOne" Scenario.cleanAsk
         (Scripted.start ["yes"] Scripted.twoEmpty)) = Normal tt
  /\ log (snd (cleanDust "WalletOne" Scenario.cleanAsk
                 (Scripted.start ["yes"] Scripted.twoEmpty)))
     = [Asked "yes"; Out Aborted].
Proof.
  pose proof (@cleanDust_confirmation Scripted.platform "WalletOne" Scenario.cleanAsk
                (Scripted.start ["yes"] Scripted.twoEmpty) _ _ _ "~/id.json"
                Scripted.walletOne "yes" [] eq_refl ltac:(discriminate) eq_refl
                eq_refl eq_refl eq_refl eq_refl eq_refl eq_refl) as H.
  cbv zeta in H. destruct H as (H1 & _ & H3 & _).
  split; [exact H1 | apply H3; discriminate].
Defined.

(* ================================================================= *)
(** ** The selection, once more *)

Lemma filter_disjoint_perm {A} (p q : A -> bool) (l : list A) :
  (forall a, p a && q a = false) ->
  Permutation (filter p l ++ filter q l) (filter (fun a => p a || q a) l).
Proof.
  intros D. induction l as [|a l IH]; simpl; [constructor|].
  specialize (D a). destruct (p a), (q a); try discriminate; simpl.
  - apply perm_skip, IH.
  - eapply perm_trans; [apply Permutation_sym, Permutation_middle|].
    apply perm_skip, IH.
  - exact IH.
Qed.

(** X21: [cleanDust] selects no account twice: the closeable and the
    burnable accounts are disjoint, so the selection holds each account of
    the list that is closeable, or burnable under [--burn], as often as
    the list does, and no other. *)
Theorem toProcess_selects_once (options : Options) (accounts : list TokenAccount) :
  Permutation (toProcess options accounts)
              (filter (fun a => isCloseable a || (burn options && isBurnable a)) accounts)
  /\ (NoDup accounts -> NoDup (toProcess options accounts)).
Proof.
  assert (Hp : Permutation (toProcess options accounts)
                 (filter (fun a => isCloseable a || (burn options && isBurnable a))
                         accounts)).
  { unfold toProcess. destruct (burn options).
    - apply filter_disjoint_perm. intros a. unfold isBurnable.
      destruct (isCloseable a); reflexivity.
    - rewrite app_nil_r. erewrite filter_ext; [apply Permutation_refl|].
      intros a. cbn [andb]. rewrite orb_false_r. reflexivity. }
  split; [exact Hp|].
  intros Hnd. eapply Permutation_NoDup; [apply Permutation_sym, Hp|].
  apply NoDup_filter, Hnd.
Qed.
